(** * BioMed Analyzer: credential store, analysis log, role router and the
      two expert workflows of [src/main.py], embedded and verified.

    Conventions of the embedding.
    - A Python [str] is the [string] of its UTF-8 bytes, so [str.encode()]
      is the identity on the model and SQLite's BINARY comparison of TEXT
      values is [String.eqb].
    - Python integers and SQLite rowids are [Z].
    - The SQLite connection is an explicit [database] value threaded through
      every call that reads or writes it.
    - A Qt handler ([clicked] slot) is a function of the widget state, the
      database and the answers of the outside world (file dialog, readers,
      renderers); it returns what the user sees, the new widget state and
      the new database. *)

From Stdlib Require Import String Ascii DecimalString ZArith List Bool Lia QArith
  Permutation Sorted.
Import ListNotations.

Open Scope Z_scope.

(** ** Byte strings and hexadecimal text *)

Definition nl : string := String (ascii_of_nat 10) EmptyString.

Definition is_empty (s : string) : bool :=
  match s with
  | EmptyString => true
  | _ => false
  end.

Definition encode (s : string) : list Z :=
  map (fun c => Z.of_N (N_of_ascii c)) (list_ascii_of_string s).

Definition hex_digit (d : Z) : ascii :=
  ascii_of_N (Z.to_N (if d <? 10 then 48 + d else 87 + d)).

Definition hex_byte (b : Z) : string :=
  String (hex_digit (b / 16)) (String (hex_digit (b mod 16)) EmptyString).

(** ** hashlib.sha256 (FIPS 180-4), on 32-bit words held in [Z] *)

Module SHA256.

Definition w32 (x : Z) : Z := x mod 2 ^ 32.
Definition add32 (x y : Z) : Z := w32 (x + y).
Definition rotr (n x : Z) : Z :=
  Z.lor (Z.shiftr x n) (w32 (Z.shiftl x (32 - n))).
Definition shr (n x : Z) : Z := Z.shiftr x n.

Definition Ch (x y z : Z) : Z :=
  Z.lxor (Z.land x y) (Z.land (w32 (Z.lnot x)) z).
Definition Maj (x y z : Z) : Z :=
  Z.lxor (Z.lxor (Z.land x y) (Z.land x z)) (Z.land y z).
Definition bsig0 (x : Z) : Z := Z.lxor (Z.lxor (rotr 2 x) (rotr 13 x)) (rotr 22 x).
Definition bsig1 (x : Z) : Z := Z.lxor (Z.lxor (rotr 6 x) (rotr 11 x)) (rotr 25 x).
Definition ssig0 (x : Z) : Z := Z.lxor (Z.lxor (rotr 7 x) (rotr 18 x)) (shr 3 x).
Definition ssig1 (x : Z) : Z := Z.lxor (Z.lxor (rotr 17 x) (rotr 19 x)) (shr 10 x).

(** The round constants are the first 32 fractional bits of the cube roots
    of the first 64 primes, the initial state those of the square roots of
    the first 8; they are computed here rather than tabulated. *)
Definition primes : list Z :=
  [2; 3; 5; 7; 11; 13; 17; 19; 23; 29; 31; 37; 41; 43; 47; 53;
   59; 61; 67; 71; 73; 79; 83; 89; 97; 101; 103; 107; 109; 113; 127; 131;
   137; 139; 149; 151; 157; 163; 167; 173; 179; 181; 191; 193; 197; 199;
   211; 223; 227; 229; 233; 239; 241; 251; 257; 263; 269; 271; 277; 281;
   283; 293; 307; 311].

Fixpoint cbrt_bits (bits : nat) (n r : Z) : Z :=
  match bits with
  | O => r
  | S b =>
      let c := r + 2 ^ Z.of_nat b in
      cbrt_bits b n (if c * c * c <=? n then c else r)
  end.

Definition K : list Z :=
  map (fun p => w32 (cbrt_bits 36 (p * 2 ^ 96) 0)) primes.

Definition H0 : list Z :=
  map (fun p => w32 (Z.sqrt (p * 2 ^ 64))) (firstn 8 primes).

(** Padding: a 1 bit, zeros up to 56 mod 64 bytes, the bit length on 8 bytes. *)
Fixpoint be_bytes (n : nat) (x : Z) : list Z :=
  match n with
  | O => []
  | S k => (x / 256 ^ Z.of_nat k) mod 256 :: be_bytes k x
  end.

Definition pad (msg : list Z) : list Z :=
  let len := Z.of_nat (length msg) in
  let zeros := Z.to_nat ((55 - len) mod 64) in
  msg ++ 128 :: repeat 0 zeros ++ be_bytes 8 (8 * len).

Fixpoint words (fuel : nat) (bs : list Z) : list Z :=
  match fuel, bs with
  | S f, b0 :: b1 :: b2 :: b3 :: rest =>
      (((b0 * 256 + b1) * 256 + b2) * 256 + b3) :: words f rest
  | _, _ => []
  end.

Fixpoint blocks (fuel : nat) (ws : list Z) : list (list Z) :=
  match fuel, ws with
  | _, [] => []
  | O, _ => []
  | S f, _ => firstn 16 ws :: blocks f (skipn 16 ws)
  end.

(** Message schedule, newest word first while it is being extended. *)
Fixpoint extend (n : nat) (rev_w : list Z) : list Z :=
  match n with
  | O => rev_w
  | S k =>
      let w i := nth i rev_w 0 in
      extend k (add32 (add32 (ssig1 (w 1%nat)) (w 6%nat))
                      (add32 (ssig0 (w 14%nat)) (w 15%nat)) :: rev_w)
  end.

Definition schedule (block : list Z) : list Z := rev (extend 48 (rev block)).

Definition round (st : list Z) (kw : Z * Z) : list Z :=
  match st with
  | [a; b; c; d; e; f; g; h] =>
      let t1 := add32 (add32 (add32 h (bsig1 e)) (add32 (Ch e f g) (fst kw))) (snd kw) in
      let t2 := add32 (bsig0 a) (Maj a b c) in
      [add32 t1 t2; a; b; c; add32 d t1; e; f; g]
  | _ => st
  end.

Definition compress (h : list Z) (block : list Z) : list Z :=
  let st := fold_left round (combine K (schedule block)) h in
  map (fun p => add32 (fst p) (snd p)) (combine h st).

Definition digest (msg : list Z) : list Z :=
  let bs := pad msg in
  let ws := words (length bs) bs in
  flat_map (be_bytes 4) (fold_left compress (blocks (length ws) ws) H0).

Definition hexdigest (msg : list Z) : string :=
  fold_right (fun b acc => append (hex_byte b) acc) EmptyString (digest msg).

End SHA256.

Definition sha256_hexdigest (password : string) : string :=
  SHA256.hexdigest (encode password).

(** ** DatabaseManager: the four tables of [create_tables] *)

(** users(id INTEGER PRIMARY KEY AUTOINCREMENT, username TEXT UNIQUE NOT NULL,
    password TEXT NOT NULL, user_type TEXT NOT NULL) *)
Record users_row : Type := {
  u_id : Z;
  u_username : string;
  u_password : string;
  u_user_type : string
}.

(** dicom_files: [study_date] and [modality] are never given by an INSERT of
    the program, so they hold SQL NULL ([None]). *)
Record dicom_files_row : Type := {
  d_id : Z;
  d_patient_id : string;
  d_patient_name : string;
  d_study_date : option string;
  d_modality : option string;
  d_dicom_path : string;
  d_nifti_path : string;
  d_user_id : Z
}.

(** The values the handlers pass as [params]: flat dictionaries of strings,
    integers and lists of strings. The column stores Python's [str] of the
    dictionary; the model keeps the dictionary. *)
Inductive pyvalue : Type :=
| PyStr (s : string)
| PyInt (n : Z)
| PyStrList (l : list string).

Definition pydict : Type := list (string * pyvalue).

Record image_analysis_row : Type := {
  ia_id : Z;
  ia_file_path : string;
  ia_analysis_type : string;
  ia_parameters : pydict;
  ia_result : string;
  ia_user_id : Z
}.

Record signal_analysis_row : Type := {
  sa_id : Z;
  sa_file_path : string;
  sa_signal_type : string;
  sa_analysis_type : string;
  sa_parameters : pydict;
  sa_result : string;
  sa_user_id : Z
}.

(** The connection [self.conn]: each table is the list of its rows in rowid
    order, which is insertion order since no statement of the program
    deletes or updates. *)
Record database : Type := {
  users : list users_row;
  dicom_files : list dicom_files_row;
  image_analysis : list image_analysis_row;
  signal_analysis : list signal_analysis_row
}.

Definition empty_database : database :=
  {| users := []; dicom_files := []; image_analysis := []; signal_analysis := [] |}.

(** AUTOINCREMENT on an INSERT that gives NULL for the key: one more than the
    largest rowid the table ever held. Rows are never deleted and a refused
    INSERT is backed out whole, so that is the largest rowid present.
    (Rowids are unbounded here; SQLite stops at 2^63 - 1.) *)
Definition next_rowid (ids : list Z) : Z := 1 + fold_right Z.max 0 ids.

Definition username_taken (db : database) (username : string) : bool :=
  existsb (fun r => String.eqb (u_username r) username) (users db).

(** [register_user]: the INSERT raises [sqlite3.IntegrityError] exactly when
    the UNIQUE constraint on [username] fails (the three bound values are
    Python strings, so no NOT NULL constraint can fail); the handler of that
    exception returns [False] and nothing was written. *)
Definition register_user (db : database) (username password user_type : string)
  : bool * database :=
  let hashed := sha256_hexdigest password in
  if username_taken db username then (false, db)
  else
    (true,
     {| users := users db ++
                 [{| u_id := next_rowid (map u_id (users db));
                     u_username := username;
                     u_password := hashed;
                     u_user_type := user_type |}];
        dicom_files := dicom_files db;
        image_analysis := image_analysis db;
        signal_analysis := signal_analysis db |}).

(** [login_user]: SELECT id, user_type ... WHERE username=? AND password=?,
    then [fetchone()]: the first matching row or [None]. *)
Definition login_user (db : database) (username password : string)
  : option (Z * string) :=
  let hashed := sha256_hexdigest password in
  match find (fun r => String.eqb (u_username r) username
                       && String.eqb (u_password r) hashed) (users db) with
  | Some r => Some (u_id r, u_user_type r)
  | None => None
  end.

Definition save_dicom_analysis (db : database)
    (patient_id patient_name dicom_path nifti_path : string) (user_id : Z)
  : database :=
  {| users := users db;
     dicom_files := dicom_files db ++
       [{| d_id := next_rowid (map d_id (dicom_files db));
           d_patient_id := patient_id;
           d_patient_name := patient_name;
           d_study_date := None;
           d_modality := None;
           d_dicom_path := dicom_path;
           d_nifti_path := nifti_path;
           d_user_id := user_id |}];
     image_analysis := image_analysis db;
     signal_analysis := signal_analysis db |}.

Definition save_image_analysis (db : database)
    (file_path analysis_type : string) (params : pydict) (result : string)
    (user_id : Z) : database :=
  {| users := users db;
     dicom_files := dicom_files db;
     image_analysis := image_analysis db ++
       [{| ia_id := next_rowid (map ia_id (image_analysis db));
           ia_file_path := file_path;
           ia_analysis_type := analysis_type;
           ia_parameters := params;
           ia_result := result;
           ia_user_id := user_id |}];
     signal_analysis := signal_analysis db |}.

Definition save_signal_analysis (db : database)
    (file_path signal_type analysis_type : string) (params : pydict)
    (result : string) (user_id : Z) : database :=
  {| users := users db;
     dicom_files := dicom_files db;
     image_analysis := image_analysis db;
     signal_analysis := signal_analysis db ++
       [{| sa_id := next_rowid (map sa_id (signal_analysis db));
           sa_file_path := file_path;
           sa_signal_type := signal_type;
           sa_analysis_type := analysis_type;
           sa_parameters := params;
           sa_result := result;
           sa_user_id := user_id |}] |}.

(** The store is well formed when usernames and ids are unique, as the UNIQUE
    and PRIMARY KEY constraints keep them. *)
Definition store_ok (db : database) : Prop :=
  NoDup (map u_username (users db)) /\ NoDup (map u_id (users db)).

(** The seed accounts of [__main__]. *)
Definition bootstrap (db : database) : database :=
  let db1 :=
    match login_user db "admin_img" "admin123" with
    | Some _ => db
    | None => snd (register_user db "admin_img" "admin123" "imagen")
    end in
  match login_user db1 "admin_sig" "admin123" with
  | Some _ => db1
  | None => snd (register_user db1 "admin_sig" "admin123" "senal")
  end.

(** ** Exceptions and what a handler leaves behind *)

(** A call of an outside library inside a [try] block: its value, or the
    text of the exception it raised. *)
Inductive result (A : Type) : Type :=
| Ok (a : A)
| Raise (e : string).
Arguments Ok {A} a.
Arguments Raise {A} e.

Inductive message_box : Type :=
| Information (title text : string)
| Warning (title text : string)
| Critical (title text : string).

(** How a slot ends: it ran its body to the end ([Completed], with the
    information box it showed if any); its guard was false or the file dialog
    was cancelled ([Ignored]); an exception reached its [except] clause
    ([Failed], with the critical box); an exception left the slot
    ([Uncaught]). *)
Inductive outcome : Type :=
| Completed (shown : option message_box)
| Ignored
| Failed (shown : message_box)
| Uncaught (e : string).

(** ** QSlider *)

(** Qt's QAbstractSlider: [setRange] keeps [minimum <= maximum] and re-bounds
    the value, [setMaximum] lowers the minimum when it must, [setValue]
    clamps into the range. A new slider has range 0..99 and value 0. *)
Record QSlider : Type := {
  minimum : Z;
  maximum : Z;
  value : Z;
  enabled : bool
}.

Definition new_QSlider : QSlider :=
  {| minimum := 0; maximum := 99; value := 0; enabled := true |}.

Definition setValue (v : Z) (s : QSlider) : QSlider :=
  {| minimum := minimum s;
     maximum := maximum s;
     value := Z.max (minimum s) (Z.min (maximum s) v);
     enabled := enabled s |}.

Definition setRange (lo hi : Z) (s : QSlider) : QSlider :=
  setValue (value s)
    {| minimum := lo; maximum := Z.max lo hi; value := value s; enabled := enabled s |}.

Definition setMaximum (hi : Z) (s : QSlider) : QSlider :=
  setRange (Z.min (minimum s) hi) hi s.

Definition setEnabled (b : bool) (s : QSlider) : QSlider :=
  {| minimum := minimum s; maximum := maximum s; value := value s; enabled := b |}.

(** ** cv2 on 8-bit images *)

Definition gray_image : Type := list (list Z).

Inductive image : Type :=
| Gray (px : gray_image)
| BGR (px : list (list (Z * Z * Z))).

Definition rows (img : gray_image) : Z := Z.of_nat (length img).

Definition cols (img : gray_image) : Z :=
  match img with
  | [] => 0
  | row :: _ => Z.of_nat (length row)
  end.

Definition pixel (img : gray_image) (r c : Z) : option Z :=
  if (0 <=? r) && (0 <=? c) then
    match nth_error img (Z.to_nat r) with
    | Some row => nth_error row (Z.to_nat c)
    | None => None
    end
  else None.

Definition range (n : Z) : list Z := map Z.of_nat (seq 0 (Z.to_nat n)).

Definition tabulate (h w : Z) (f : Z -> Z -> Z) : gray_image :=
  map (fun r => map (fun c => f r c) (range w)) (range h).

(** cv2.cvtColor(_, COLOR_BGR2GRAY) on 8-bit data: 0.299 R + 0.587 G +
    0.114 B in 14-bit fixed point (OpenCV versions differ in the number of
    fraction bits; a pixel with three equal channels keeps its value in all
    of them). *)
Definition bgr2gray (p : Z * Z * Z) : Z :=
  let '(b, g, r) := p in
  Z.shiftr (b * 1868 + g * 9617 + r * 4899 + 8192) 14.

Definition cvtColor_BGR2GRAY (px : list (list (Z * Z * Z))) : gray_image :=
  map (map bgr2gray) px.

(** The pixels under a square structuring element of odd size [2a+1]
    anchored at its centre; pixels outside the image do not take part
    (cv2's default border for morphology). *)
Definition offsets (a : Z) : list Z := map (fun i => i - a) (range (2 * a + 1)).

Definition neighbourhood (img : gray_image) (a r c : Z) : list Z :=
  flat_map (fun dr =>
    flat_map (fun dc =>
      match pixel img (r + dr) (c + dc) with
      | Some v => [v]
      | None => []
      end) (offsets a)) (offsets a).

Definition erode (ksize : Z) (img : gray_image) : gray_image :=
  tabulate (rows img) (cols img)
    (fun r c => fold_right Z.min 255 (neighbourhood img (ksize / 2) r c)).

Definition dilate (ksize : Z) (img : gray_image) : gray_image :=
  tabulate (rows img) (cols img)
    (fun r c => fold_right Z.max 0 (neighbourhood img (ksize / 2) r c)).

Inductive morph_type : Type := MORPH_OPEN | MORPH_CLOSE | MORPH_GRADIENT.

(** cv2.morphologyEx with a [ksize] x [ksize] kernel of ones. With
    [iterations = n] an opening is n erosions followed by n dilations. *)
Definition morphologyEx (src : gray_image) (op : morph_type) (ksize : Z)
    (iterations : nat) : gray_image :=
  let eroded := Nat.iter iterations (erode ksize) in
  let dilated := Nat.iter iterations (dilate ksize) in
  match op with
  | MORPH_OPEN => dilated (eroded src)
  | MORPH_CLOSE => eroded (dilated src)
  | MORPH_GRADIENT =>
      let d := dilated src in
      let e := eroded src in
      tabulate (rows src) (cols src)
        (fun r c =>
           match pixel d r c, pixel e r c with
           | Some x, Some y => Z.max 0 (x - y)
           | _, _ => 0
           end)
  end.

(** Otsu's threshold over the 256 grey levels, in exact arithmetic: the first
    level [t] that maximises the between-class variance of the classes
    [<= t] and [> t]; levels that leave a class empty are skipped, and 0 is
    returned when every level is skipped. With [n1], [s1] the number and sum
    of the pixels [<= t] and [n], [s] those of all pixels, the variance is
    proportional to [(s1 n - s n1)^2 / (n1 (n - n1))]; two variances are
    compared by cross multiplication. *)
Definition count_le (t : Z) (px : list Z) : Z :=
  Z.of_nat (length (filter (fun v => v <=? t) px)).

Definition sum_list (px : list Z) : Z := fold_right Z.add 0 px.

Definition sum_le (t : Z) (px : list Z) : Z :=
  sum_list (filter (fun v => v <=? t) px).

Definition otsu_step (px : list Z) (best : Z * Z * Z) (t : Z) : Z * Z * Z :=
  let '(best_num, best_den, best_t) := best in
  let n := Z.of_nat (length px) in
  let n1 := count_le t px in
  let n2 := n - n1 in
  if (n1 =? 0) || (n2 =? 0) then best
  else
    let num := (sum_le t px * n - sum_list px * n1) ^ 2 in
    let den := n1 * n2 in
    if best_num * den <? num * best_den then (num, den, t) else best.

Definition otsu_threshold (img : gray_image) : Z :=
  snd (fold_left (otsu_step (concat img)) (range 256) (0, 1, 0)).

(** cv2.threshold(gray, 0, 255, THRESH_BINARY_INV + THRESH_OTSU): the given
    threshold 0 is replaced by Otsu's; a pixel above it becomes 0, any other
    255. *)
Definition threshold_BINARY_INV_OTSU (img : gray_image) : Z * gray_image :=
  let t := otsu_threshold img in
  (t, map (map (fun v => if t <? v then 0 else 255)) img).

(** cv2.connectedComponents, 8-connectivity: the non-zero pixels are taken in
    raster order; each joins the components it touches into one. The first
    value returned counts the components and the background label 0. *)
Definition point : Type := (Z * Z)%type.

Definition adjacent8 (p q : point) : bool :=
  (Z.abs (fst p - fst q) <=? 1) && (Z.abs (snd p - snd q) <=? 1).

Definition touches (p : point) (component : list point) : bool :=
  existsb (adjacent8 p) component.

Definition add_pixel (components : list (list point)) (p : point)
  : list (list point) :=
  (p :: concat (filter (touches p) components))
  :: filter (fun c => negb (touches p c)) components.

Definition foreground (img : gray_image) : list point :=
  flat_map (fun r =>
    flat_map (fun c =>
      match pixel img r c with
      | Some v => if v =? 0 then [] else [(r, c)]
      | None => []
      end) (range (cols img))) (range (rows img)).

Definition components (img : gray_image) : list (list point) :=
  fold_left add_pixel (foreground img) [].

Definition connectedComponents (img : gray_image) : Z :=
  1 + Z.of_nat (length (components img)).

(** The image pipeline of [count_cells] up to the number it reports. *)
Definition to_gray (img : image) : gray_image :=
  match img with
  | BGR px => cvtColor_BGR2GRAY px
  | Gray px => px
  end.

Definition cell_count_of (img : image) : Z :=
  let gray := to_gray img in
  let binary := snd (threshold_BINARY_INV_OTSU gray) in
  let opening := morphologyEx binary MORPH_OPEN 3 2 in
  let num_labels := connectedComponents opening in
  num_labels - 1.

(** ** ImageExpertWindow *)

Open Scope string_scope.
Open Scope Z_scope.

(** [self.dicom_volume]: an ndarray; only its shape decides what a handler
    does. *)
Record volume : Type := {
  vol_shape : list Z
}.

(** The entries of the two combo boxes (not editable). *)
Inductive morph_choice : Type := Apertura | Cierre | Gradiente.
Inductive kernel_choice : Type := K3x3 | K5x5 | K7x7.

Definition morph_text (m : morph_choice) : string :=
  match m with
  | Apertura => "Apertura"
  | Cierre => "Cierre"
  | Gradiente => "Gradiente"
  end.

Definition op_map (m : morph_choice) : morph_type :=
  match m with
  | Apertura => MORPH_OPEN
  | Cierre => MORPH_CLOSE
  | Gradiente => MORPH_GRADIENT
  end.

(** [int(self.morph_kernel.currentText().split('x')[0])] *)
Definition kernel_size (k : kernel_choice) : Z :=
  match k with
  | K3x3 => 3
  | K5x5 => 5
  | K7x7 => 7
  end.

(** [current_image_path] is an attribute only once [load_image] has set it
    ([None] before); [current_image] and [dicom_volume] start as Python's
    [None]. *)
Record image_window : Type := {
  iw_user_id : Z;
  iw_current_image : option image;
  iw_current_image_path : option string;
  iw_dicom_volume : option volume;
  iw_slider_axial : QSlider;
  iw_slider_coronal : QSlider;
  iw_slider_sagital : QSlider;
  iw_patient_info : string;
  iw_morph_op : morph_choice;
  iw_morph_kernel : kernel_choice;
  iw_cell_count : string
}.

(** [__init__] and [setup_ui]: the sliders are created and disabled. *)
Definition new_image_window (user_id : Z) : image_window :=
  {| iw_user_id := user_id;
     iw_current_image := None;
     iw_current_image_path := None;
     iw_dicom_volume := None;
     iw_slider_axial := setEnabled false new_QSlider;
     iw_slider_coronal := setEnabled false new_QSlider;
     iw_slider_sagital := setEnabled false new_QSlider;
     iw_patient_info := "No hay datos cargados";
     iw_morph_op := Apertura;
     iw_morph_kernel := K3x3;
     iw_cell_count := "Células detectadas: -" |}.

Definition with_image (img : option image) (path : option string)
    (w : image_window) : image_window :=
  {| iw_user_id := iw_user_id w;
     iw_current_image := img;
     iw_current_image_path := path;
     iw_dicom_volume := iw_dicom_volume w;
     iw_slider_axial := iw_slider_axial w;
     iw_slider_coronal := iw_slider_coronal w;
     iw_slider_sagital := iw_slider_sagital w;
     iw_patient_info := iw_patient_info w;
     iw_morph_op := iw_morph_op w;
     iw_morph_kernel := iw_morph_kernel w;
     iw_cell_count := iw_cell_count w |}.

Definition with_volume (v : volume) (w : image_window) : image_window :=
  {| iw_user_id := iw_user_id w;
     iw_current_image := iw_current_image w;
     iw_current_image_path := iw_current_image_path w;
     iw_dicom_volume := Some v;
     iw_slider_axial := iw_slider_axial w;
     iw_slider_coronal := iw_slider_coronal w;
     iw_slider_sagital := iw_slider_sagital w;
     iw_patient_info := iw_patient_info w;
     iw_morph_op := iw_morph_op w;
     iw_morph_kernel := iw_morph_kernel w;
     iw_cell_count := iw_cell_count w |}.

Definition with_sliders (axial coronal sagital : QSlider) (w : image_window)
  : image_window :=
  {| iw_user_id := iw_user_id w;
     iw_current_image := iw_current_image w;
     iw_current_image_path := iw_current_image_path w;
     iw_dicom_volume := iw_dicom_volume w;
     iw_slider_axial := axial;
     iw_slider_coronal := coronal;
     iw_slider_sagital := sagital;
     iw_patient_info := iw_patient_info w;
     iw_morph_op := iw_morph_op w;
     iw_morph_kernel := iw_morph_kernel w;
     iw_cell_count := iw_cell_count w |}.

Definition with_patient_info (info : string) (w : image_window) : image_window :=
  {| iw_user_id := iw_user_id w;
     iw_current_image := iw_current_image w;
     iw_current_image_path := iw_current_image_path w;
     iw_dicom_volume := iw_dicom_volume w;
     iw_slider_axial := iw_slider_axial w;
     iw_slider_coronal := iw_slider_coronal w;
     iw_slider_sagital := iw_slider_sagital w;
     iw_patient_info := info;
     iw_morph_op := iw_morph_op w;
     iw_morph_kernel := iw_morph_kernel w;
     iw_cell_count := iw_cell_count w |}.

Definition with_cell_count (text : string) (w : image_window) : image_window :=
  {| iw_user_id := iw_user_id w;
     iw_current_image := iw_current_image w;
     iw_current_image_path := iw_current_image_path w;
     iw_dicom_volume := iw_dicom_volume w;
     iw_slider_axial := iw_slider_axial w;
     iw_slider_coronal := iw_slider_coronal w;
     iw_slider_sagital := iw_slider_sagital w;
     iw_patient_info := iw_patient_info w;
     iw_morph_op := iw_morph_op w;
     iw_morph_kernel := iw_morph_kernel w;
     iw_cell_count := text |}.

(** The body of the loop shared by [load_dicom] and [view_nifti]. *)
Definition fit_slider (dim : Z) (slider : QSlider) : QSlider :=
  setEnabled true (setValue (dim / 2) (setMaximum (dim - 1) slider)).

(** [for slider, dim in zip([axial, coronal, sagital], volume.shape)]: the
    zip stops at the shorter of the two. The redraw that [valueChanged]
    triggers while the loop runs only reads the sliders and the volume and is
    left out. *)
Definition fit_sliders (shape : list Z) (w : image_window) : image_window :=
  match shape with
  | [] => w
  | [a] =>
      with_sliders (fit_slider a (iw_slider_axial w))
        (iw_slider_coronal w) (iw_slider_sagital w) w
  | [a; b] =>
      with_sliders (fit_slider a (iw_slider_axial w))
        (fit_slider b (iw_slider_coronal w)) (iw_slider_sagital w) w
  | a :: b :: c :: _ =>
      with_sliders (fit_slider a (iw_slider_axial w))
        (fit_slider b (iw_slider_coronal w))
        (fit_slider c (iw_slider_sagital w)) w
  end.

(** numpy accepts the index [i] on an axis of extent [dim] when
    [-dim <= i < dim]. *)
Definition index_ok (dim i : Z) : bool := (- dim <=? i) && (i <? dim).

(** [update_dicom_view]: the three cuts at the slider values, then their
    display ([draw], the answer of matplotlib). [hasattr(self,
    'dicom_volume')] always holds. *)
Definition update_dicom_view (w : image_window) (draw : result unit)
  : result unit :=
  match iw_dicom_volume w with
  | None => Raise "'NoneType' object is not subscriptable"
  | Some v =>
      match vol_shape v with
      | a :: b :: c :: _ =>
          if index_ok a (value (iw_slider_axial w))
             && index_ok b (value (iw_slider_coronal w))
             && index_ok c (value (iw_slider_sagital w))
          then draw
          else Raise "index is out of bounds"
      | _ => Raise "too many indices for array"
      end
  end.

(** What [load_dicom] gets from outside: the directory chosen (empty when the
    dialog is cancelled); the outcome of listing, reading, sorting and
    stacking the slices, with the first slice's patient attributes when
    present; the outcome of the final display. *)
Record dicom_series : Type := {
  ds_volume : volume;
  ds_patient_name : option string;
  ds_patient_id : option string
}.

Record load_dicom_env : Type := {
  ld_dir_path : string;
  ld_read : result dicom_series;
  ld_draw : result unit
}.

Definition getattr (attribute : option string) (default : string) : string :=
  match attribute with
  | Some v => v
  | None => default
  end.

Definition load_dicom (env : load_dicom_env) (w : image_window) (db : database)
  : outcome * image_window * database :=
  let dir_path := ld_dir_path env in
  if is_empty dir_path then (Ignored, w, db)
  else
    match ld_read env with
    | Raise e =>
        (Failed (Critical "Error" ("Error al cargar DICOM: " ++ e)), w, db)
    | Ok series =>
        let w1 := with_volume (ds_volume series) w in
        let w2 := fit_sliders (vol_shape (ds_volume series)) w1 in
        let info := ("Paciente: " ++ getattr (ds_patient_name series) "N/A"
                     ++ " | ID: " ++ getattr (ds_patient_id series) "N/A") in
        let w3 := with_patient_info info w2 in
        let db' := save_dicom_analysis db
                     (getattr (ds_patient_id series) "")
                     (getattr (ds_patient_name series) "")
                     dir_path "" (iw_user_id w) in
        match update_dicom_view w3 (ld_draw env) with
        | Ok _ => (Completed None, w3, db')
        | Raise e =>
            (Failed (Critical "Error" ("Error al cargar DICOM: " ++ e)), w3, db')
        end
    end.

(** [convert_to_nifti]: building the image raises when no volume is loaded;
    [cn_build] and [cn_save] are nibabel's answers otherwise. *)
Record convert_env : Type := {
  cn_build : result unit;
  cn_filepath : string;
  cn_save : result unit
}.

Definition convert_to_nifti (env : convert_env) (w : image_window) (db : database)
  : outcome * image_window * database :=
  let built :=
    match iw_dicom_volume w with
    | None => Raise "'NoneType' object has no attribute 'shape'"
    | Some _ => cn_build env
    end in
  match built with
  | Raise e => (Failed (Critical "Error" ("Error al convertir: " ++ e)), w, db)
  | Ok _ =>
      if is_empty (cn_filepath env) then (Ignored, w, db)
      else
        match cn_save env with
        | Raise e => (Failed (Critical "Error" ("Error al convertir: " ++ e)), w, db)
        | Ok _ => (Completed (Some (Information "Éxito" "Archivo NIfTI guardado")), w, db)
        end
  end.

Record view_nifti_env : Type := {
  vn_filepath : string;
  vn_load : result volume;
  vn_draw : result unit
}.

Definition view_nifti (env : view_nifti_env) (w : image_window) (db : database)
  : outcome * image_window * database :=
  if is_empty (vn_filepath env) then (Ignored, w, db)
  else
    match vn_load env with
    | Raise e => (Failed (Critical "Error" ("Error al cargar NIfTI: " ++ e)), w, db)
    | Ok v =>
        let w1 := with_volume v w in
        let w2 := fit_sliders (vol_shape v) w1 in
        match update_dicom_view w2 (vn_draw env) with
        | Ok _ => (Completed None, w2, db)
        | Raise e =>
            (Failed (Critical "Error" ("Error al cargar NIfTI: " ++ e)), w2, db)
        end
    end.

(** [show_image] reads [self.current_image.shape], which raises on [None];
    [show] is matplotlib's answer otherwise. *)
Definition show_image (w : image_window) (show : result unit) : result unit :=
  match iw_current_image w with
  | None => Raise "'NoneType' object has no attribute 'shape'"
  | Some _ => show
  end.

(** [load_image]: [cv2.imread] gives [None] for a file it cannot read; there
    is no [try] in this slot. *)
Record load_image_env : Type := {
  li_filepath : string;
  li_imread : option image;
  li_show : result unit
}.

Definition load_image (env : load_image_env) (w : image_window) (db : database)
  : outcome * image_window * database :=
  if is_empty (li_filepath env) then (Ignored, w, db)
  else
    let w1 := with_image (li_imread env) (Some (li_filepath env)) w in
    match show_image w1 (li_show env) with
    | Ok _ => (Completed None, w1, db)
    | Raise e => (Uncaught e, w1, db)
    end.

Definition apply_morphological (show : result unit) (w : image_window)
    (db : database) : outcome * image_window * database :=
  match iw_current_image w with
  | None => (Ignored, w, db)
  | Some img =>
      let op := op_map (iw_morph_op w) in
      let ksize := kernel_size (iw_morph_kernel w) in
      let gray := to_gray img in
      let result := morphologyEx gray op ksize 1 in
      let w1 := with_image (Some (Gray result)) (iw_current_image_path w) w in
      let failed e := Failed (Critical "Error" ("Error en operación: " ++ e)) in
      match show_image w1 show with
      | Raise e => (failed e, w1, db)
      | Ok _ =>
          let params := [("operation", PyStr (morph_text (iw_morph_op w)));
                         ("kernel_size", PyInt ksize)] in
          match iw_current_image_path w1 with
          | None =>
              (failed "'ImageExpertWindow' object has no attribute 'current_image_path'",
               w1, db)
          | Some path =>
              (Completed None, w1,
               save_image_analysis db path "morphological" params "success"
                 (iw_user_id w1))
          end
      end
  end.

(** Python's [str] of an integer. *)
Definition str_of_int (n : Z) : string :=
  DecimalString.NilZero.string_of_int (Z.to_int n).

Definition count_cells (draw : result unit) (w : image_window) (db : database)
  : outcome * image_window * database :=
  match iw_current_image w with
  | None => (Ignored, w, db)
  | Some img =>
      let count := cell_count_of img in
      let failed e := Failed (Critical "Error" ("Error en conteo: " ++ e)) in
      match draw with
      | Raise e => (failed e, w, db)
      | Ok _ =>
          let w1 := with_cell_count ("Células detectadas: " ++ str_of_int count) w in
          match iw_current_image_path w1 with
          | None =>
              (failed "'ImageExpertWindow' object has no attribute 'current_image_path'",
               w1, db)
          | Some path =>
              (Completed None, w1,
               save_image_analysis db path "cell_count"
                 [("method", PyStr "connected_components")]
                 (str_of_int count) (iw_user_id w1))
          end
      end
  end.

Record save_analysis_env : Type := {
  sv_filepath : string;
  sv_imwrite : result unit
}.

Definition save_analysis (env : save_analysis_env) (w : image_window)
    (db : database) : outcome * image_window * database :=
  match iw_current_image w, iw_current_image_path w with
  | Some _, Some _ =>
      if is_empty (sv_filepath env) then (Ignored, w, db)
      else
        match sv_imwrite env with
        | Raise e => (Failed (Critical "Error" ("Error al guardar: " ++ e)), w, db)
        | Ok _ => (Completed (Some (Information "Éxito" "Imagen guardada")), w, db)
        end
  | _, _ => (Ignored, w, db)
  end.

(** ** Numbers as numpy and pandas report them *)

(** Statistics are computed in exact arithmetic: a value is a rational, the
    square root of a non-negative rational (a standard deviation), or NaN.
    Binary floating point rounding is not modelled. *)
Inductive number : Type :=
| NaN
| Exact (q : Q)
| Root (q : Q).

(** Nearest integer to the non-negative rational [a / b], ties to even. *)
Definition round_half_even (a : Z) (b : Z) : Z :=
  let k := a / b in
  let twice := 2 * (a mod b) in
  if twice <? b then k
  else if b <? twice then k + 1
  else if Z.even k then k else k + 1.

(** Nearest integer to [sqrt (a / b)], ties to even. *)
Definition round_sqrt (a : Z) (b : Z) : Z :=
  let f := Z.sqrt (a / b) in
  let mid := (2 * f + 1) * (2 * f + 1) * b in
  if 4 * a <? mid then f
  else if mid <? 4 * a then f + 1
  else if Z.even f then f else f + 1.

Definition digit (d : Z) : ascii := ascii_of_N (Z.to_N (48 + d)).

Definition format_hundredths (negative : bool) (k : Z) : string :=
  (if negative then "-" else "")
  ++ str_of_int (k / 100) ++ "."
  ++ String (digit (k mod 100 / 10)) (String (digit (k mod 10)) EmptyString).

(** Python's [f"{x:.2f}"]. *)
Definition format_2f (x : number) : string :=
  match x with
  | NaN => "nan"
  | Exact q =>
      format_hundredths (Qnum q <? 0)
        (round_half_even (Z.abs (Qnum q) * 100) (Z.pos (Qden q)))
  | Root q =>
      format_hundredths false
        (round_sqrt (Qnum q * 10000) (Z.pos (Qden q)))
  end.

Definition Qsum (l : list Q) : Q := fold_right Qplus (0 # 1) l.

Definition Qmean (l : list Q) : Q := Qsum l / inject_Z (Z.of_nat (length l)).

(** Sum of the squared deviations from the mean. *)
Definition Qdev2 (l : list Q) : Q :=
  Qsum (map (fun x => (x - Qmean l) * (x - Qmean l))%Q l).

Definition Qmaximum (x : Q) (l : list Q) : Q :=
  fold_right (fun a b => if Qle_bool b a then a else b) x l.

Definition Qminimum (x : Q) (l : list Q) : Q :=
  fold_right (fun a b => if Qle_bool a b then a else b) x l.

(** The cells of a numeric array or column: [None] is a NaN cell. *)
Definition cells : Type := list (option Q).

Definition valid (c : cells) : list Q :=
  flat_map (fun x => match x with Some q => [q] | None => [] end) c.

Definition has_nan (c : cells) : bool :=
  existsb (fun x => match x with Some _ => false | None => true end) c.

(** numpy: a NaN cell makes every statistic NaN; the mean and deviation of
    an empty array are NaN, its maximum and minimum raise. [np.std] divides
    by the number of values. *)
Definition np_mean (c : cells) : number :=
  if has_nan c then NaN
  else match c with [] => NaN | _ => Exact (Qmean (valid c)) end.

Definition np_std (c : cells) : number :=
  if has_nan c then NaN
  else match c with
       | [] => NaN
       | _ => Root (Qdev2 (valid c) / inject_Z (Z.of_nat (length c)))
       end.

Definition np_max (c : cells) : result number :=
  match valid c with
  | [] => match c with
          | [] => Raise "zero-size array to reduction operation maximum which has no identity"
          | _ => Ok NaN
          end
  | x :: l => Ok (if has_nan c then NaN else Exact (Qmaximum x l))
  end.

Definition np_min (c : cells) : result number :=
  match valid c with
  | [] => match c with
          | [] => Raise "zero-size array to reduction operation minimum which has no identity"
          | _ => Ok NaN
          end
  | x :: l => Ok (if has_nan c then NaN else Exact (Qminimum x l))
  end.

(** pandas: NaN cells are skipped; a statistic with no value left is NaN;
    [Series.std] divides by one less than the number of values and is NaN
    for fewer than two. *)
Definition pd_mean (c : cells) : number :=
  match valid c with
  | [] => NaN
  | l => Exact (Qmean l)
  end.

Definition pd_std (c : cells) : number :=
  match valid c with
  | [] | [_] => NaN
  | l => Root (Qdev2 l / inject_Z (Z.of_nat (length l) - 1))
  end.

Definition pd_max (c : cells) : number :=
  match valid c with
  | [] => NaN
  | x :: l => Exact (Qmaximum x l)
  end.

Definition pd_min (c : cells) : number :=
  match valid c with
  | [] => NaN
  | x :: l => Exact (Qminimum x l)
  end.

(** [Series.value_counts()]: every distinct non-null value with the number
    of its occurrences, most frequent first. *)
Definition count_occ_string (v : string) (l : list string) : Z :=
  Z.of_nat (length (filter (String.eqb v) l)).

Fixpoint distinct (l : list string) : list string :=
  match l with
  | [] => []
  | v :: rest => v :: filter (fun x => negb (String.eqb v x)) (distinct rest)
  end.

Fixpoint insert_by_count (e : string * Z) (l : list (string * Z))
  : list (string * Z) :=
  match l with
  | [] => [e]
  | x :: rest =>
      if snd x <=? snd e then e :: l else x :: insert_by_count e rest
  end.

Definition sort_by_count (l : list (string * Z)) : list (string * Z) :=
  fold_right insert_by_count [] l.

Definition present (col : list (option string)) : list string :=
  flat_map (fun x => match x with Some v => [v] | None => [] end) col.

Definition value_counts (col : list (option string)) : list (string * Z) :=
  sort_by_count
    (map (fun v => (v, count_occ_string v (present col))) (distinct (present col))).

(** ** SignalExpertWindow *)

(** QComboBox: the entries and the index of the current one ([None] when
    there is none). Adding entries to an empty box selects the first. *)
Record QComboBox : Type := {
  cb_items : list string;
  cb_index : option nat
}.

Definition empty_QComboBox : QComboBox := {| cb_items := []; cb_index := None |}.

Definition currentText (cb : QComboBox) : string :=
  match cb_index cb with
  | Some i => nth i (cb_items cb) ""
  | None => ""
  end.

Definition addItems (l : list string) (cb : QComboBox) : QComboBox :=
  {| cb_items := (cb_items cb ++ l)%list;
     cb_index := match cb_index cb, l with
                 | None, _ :: _ => Some 0%nat
                 | i, _ => i
                 end |}.

(** A variable of a .mat file: an array with its rank, and its numbers when
    its dtype is numeric. *)
Record mat_array : Type := {
  ma_ndim : nat;
  ma_numbers : option cells
}.

(** A column of a DataFrame: a numeric dtype, or any other (strings,
    booleans, ...), its cells as text. *)
Inductive column : Type :=
| NumericColumn (c : cells)
| ObjectColumn (c : list (option string)).

Definition DataFrame : Type := list (string * column).

Definition column_length (col : column) : nat :=
  match col with
  | NumericColumn c => length c
  | ObjectColumn c => length c
  end.

Definition is_numeric (col : column) : bool :=
  match col with
  | NumericColumn _ => true
  | ObjectColumn _ => false
  end.

Fixpoint lookup {A : Type} (key : string) (d : list (string * A)) : option A :=
  match d with
  | [] => None
  | (k, v) :: rest => if String.eqb k key then Some v else lookup key rest
  end.

Record signal_window : Type := {
  sw_user_id : Z;
  sw_mat_data : option (list (string * mat_array));
  sw_df : option DataFrame;
  sw_signal_combo : QComboBox;
  sw_csv_x : QComboBox;
  sw_csv_y : QComboBox
}.

Definition new_signal_window (user_id : Z) : signal_window :=
  {| sw_user_id := user_id;
     sw_mat_data := None;
     sw_df := None;
     sw_signal_combo := empty_QComboBox;
     sw_csv_x := empty_QComboBox;
     sw_csv_y := empty_QComboBox |}.

Definition startswith (prefix s : string) : bool := String.prefix prefix s.

Record load_mat_env : Type := {
  lm_filepath : string;
  lm_loadmat : result (list (string * mat_array))
}.

Definition load_mat (env : load_mat_env) (w : signal_window) (db : database)
  : outcome * signal_window * database :=
  let filepath := lm_filepath env in
  if is_empty filepath then (Ignored, w, db)
  else
    match lm_loadmat env with
    | Raise e => (Failed (Critical "Error" ("Error al cargar .mat: " ++ e)), w, db)
    | Ok mat =>
        let names := filter (fun k => negb (startswith "__" k)) (map fst mat) in
        (Completed None,
         {| sw_user_id := sw_user_id w;
            sw_mat_data := Some mat;
            sw_df := sw_df w;
            sw_signal_combo := addItems names empty_QComboBox;
            sw_csv_x := sw_csv_x w;
            sw_csv_y := sw_csv_y w |},
         save_signal_analysis db filepath "MAT" "load" [] "success" (sw_user_id w))
    end.

(** [self.mat_data[self.signal_combo.currentText()]] *)
Definition selected_signal (w : signal_window) : result mat_array :=
  match sw_mat_data w with
  | None => Raise "'NoneType' object is not subscriptable"
  | Some mat =>
      match lookup (currentText (sw_signal_combo w)) mat with
      | Some data => Ok data
      | None => Raise (currentText (sw_signal_combo w))
      end
  end.

Definition plot_signal (draw : result unit) (w : signal_window) (db : database)
  : outcome * signal_window * database :=
  let name := currentText (sw_signal_combo w) in
  if is_empty name then (Ignored, w, db)
  else
    let failed e := Failed (Critical "Error" ("Error al graficar: " ++ e)) in
    match selected_signal w with
    | Raise e => (failed e, w, db)
    | Ok _ =>
        match draw with
        | Raise e => (failed e, w, db)
        | Ok _ =>
            (Completed None, w,
             save_signal_analysis db "" "MAT" "plot" [("signal", PyStr name)]
               "success" (sw_user_id w))
        end
    end.

Definition signal_report (c : cells) : result string :=
  match np_max c, np_min c with
  | Ok max_val, Ok min_val =>
      Ok ("Media: " ++ format_2f (np_mean c) ++ nl
          ++ "Desviación: " ++ format_2f (np_std c) ++ nl
          ++ "Máximo: " ++ format_2f max_val ++ nl
          ++ "Mínimo: " ++ format_2f min_val)
  | Raise e, _ => Raise e
  | _, Raise e => Raise e
  end.

Definition analyze_signal (w : signal_window) (db : database)
  : outcome * signal_window * database :=
  let name := currentText (sw_signal_combo w) in
  if is_empty name then (Ignored, w, db)
  else
    let failed e := Failed (Critical "Error" ("Error en análisis: " ++ e)) in
    match selected_signal w with
    | Raise e => (failed e, w, db)
    | Ok data =>
        match ma_numbers data with
        | None => (failed "cannot perform reduce with flexible type", w, db)
        | Some c =>
            match signal_report c with
            | Raise e => (failed e, w, db)
            | Ok result =>
                (Completed (Some (Information "Análisis" result)), w,
                 save_signal_analysis db "" "MAT" "basic_analysis"
                   [("signal", PyStr name)] result (sw_user_id w))
            end
        end
    end.

Record load_csv_env : Type := {
  lc_filepath : string;
  lc_read_csv : result DataFrame
}.

(** [load_csv]; the cells copied into the table widget are display only. *)
Definition load_csv (env : load_csv_env) (w : signal_window) (db : database)
  : outcome * signal_window * database :=
  let filepath := lc_filepath env in
  if is_empty filepath then (Ignored, w, db)
  else
    match lc_read_csv env with
    | Raise e => (Failed (Critical "Error" ("Error al cargar CSV: " ++ e)), w, db)
    | Ok df =>
        let columns := map fst df in
        (Completed None,
         {| sw_user_id := sw_user_id w;
            sw_mat_data := sw_mat_data w;
            sw_df := Some df;
            sw_signal_combo := sw_signal_combo w;
            sw_csv_x := addItems columns empty_QComboBox;
            sw_csv_y := addItems columns empty_QComboBox |},
         save_signal_analysis db filepath "CSV" "load"
           [("columns", PyStrList columns)] "success" (sw_user_id w))
    end.

(** [self.df[name]] *)
Definition selected_column (w : signal_window) (name : string) : result column :=
  match sw_df w with
  | None => Raise "'NoneType' object is not subscriptable"
  | Some df =>
      match lookup name df with
      | Some col => Ok col
      | None => Raise name
      end
  end.

Definition plot_csv (draw : result unit) (w : signal_window) (db : database)
  : outcome * signal_window * database :=
  let x_name := currentText (sw_csv_x w) in
  let y_name := currentText (sw_csv_y w) in
  if is_empty x_name || is_empty y_name then (Ignored, w, db)
  else
    let failed e := Failed (Critical "Error" ("Error al graficar: " ++ e)) in
    match selected_column w x_name, selected_column w y_name with
    | Raise e, _ => (failed e, w, db)
    | Ok _, Raise e => (failed e, w, db)
    | Ok _, Ok _ =>
        match draw with
        | Raise e => (failed e, w, db)
        | Ok _ =>
            (Completed None, w,
             save_signal_analysis db "" "CSV" "plot"
               [("x_axis", PyStr x_name); ("y_axis", PyStr y_name)]
               "success" (sw_user_id w))
        end
    end.

(** The report of [analyze_csv] on a column; [to_string] is pandas'
    rendering of the counted values ([Series.to_string]). *)
Definition csv_report (to_string : list (string * Z) -> string)
    (name : string) (col : column) : string :=
  match col with
  | NumericColumn c =>
      "Análisis de " ++ name ++ ":" ++ nl
      ++ "Media: " ++ format_2f (pd_mean c) ++ nl
      ++ "Desviación: " ++ format_2f (pd_std c) ++ nl
      ++ "Máximo: " ++ format_2f (pd_max c) ++ nl
      ++ "Mínimo: " ++ format_2f (pd_min c) ++ nl
      ++ "Cantidad: " ++ str_of_int (Z.of_nat (length c))
  | ObjectColumn c =>
      "Conteo de valores para " ++ name ++ ":" ++ nl
      ++ to_string (value_counts c)
  end.

Definition analyze_csv (to_string : list (string * Z) -> string)
    (w : signal_window) (db : database)
  : outcome * signal_window * database :=
  let name := currentText (sw_csv_y w) in
  if is_empty name then (Ignored, w, db)
  else
    match selected_column w name with
    | Raise e => (Failed (Critical "Error" ("Error en análisis: " ++ e)), w, db)
    | Ok col =>
        let result := csv_report to_string name col in
        (Completed (Some (Information "Análisis" result)), w,
         save_signal_analysis db "" "CSV" "basic_analysis"
           [("column", PyStr name)] result (sw_user_id w))
    end.


(** ** MainWindow: the factory on the stored role *)

Inductive main_window : Type :=
| ImageExpertWindow (w : image_window)
| SignalExpertWindow (w : signal_window).

Definition MainWindow (user_id : Z) (user_type : string) : main_window :=
  if String.eqb user_type "imagen" then ImageExpertWindow (new_image_window user_id)
  else SignalExpertWindow (new_signal_window user_id).

(** ** LoginWindow *)

(** The form: the two line edits, the radio button of the image expert, and
    the main window once one was built ([self.main_window]). *)
Record login_window : Type := {
  lw_username : string;
  lw_password : string;
  lw_btn_imagen : bool;
  lw_main_window : option main_window
}.

Definition handle_register (w : login_window) (db : database)
  : message_box * database :=
  let username := lw_username w in
  let password := lw_password w in
  let user_type := if lw_btn_imagen w then "imagen" else "senal" in
  if is_empty username || is_empty password then
    (Warning "Error" "Por favor complete todos los campos", db)
  else
    let (ok, db') := register_user db username password user_type in
    if ok then (Information "Éxito" "Registro exitoso", db')
    else (Warning "Error" "El usuario ya existe", db').

Definition handle_login (w : login_window) (db : database)
  : option message_box * login_window :=
  let username := lw_username w in
  let password := lw_password w in
  if is_empty username || is_empty password then
    (Some (Warning "Error" "Por favor complete todos los campos"), w)
  else
    match login_user db username password with
    | Some user =>
        (None,
         {| lw_username := lw_username w;
            lw_password := lw_password w;
            lw_btn_imagen := lw_btn_imagen w;
            lw_main_window :=
              match lw_main_window w with
              | None => Some (MainWindow (fst user) (snd user))
              | Some mw => Some mw
              end |})
    | None => (Some (Warning "Error" "Credenciales incorrectas"), w)
    end.


(** ** The buttons of the two windows *)

(** A click, with the answers the outside world gives while its slot runs
    ([clicked.connect] in [setup_dicom_tab], [setup_image_analysis_tab],
    [setup_mat_tab] and [setup_csv_tab]). *)
Inductive image_operation : Type :=
| LoadDicom (env : load_dicom_env)
| ConvertToNifti (env : convert_env)
| ViewNifti (env : view_nifti_env)
| LoadImage (env : load_image_env)
| ApplyMorphological (show : result unit)
| CountCells (draw : result unit)
| SaveAnalysis (env : save_analysis_env).

Definition run_image (op : image_operation) (w : image_window) (db : database)
  : outcome * image_window * database :=
  match op with
  | LoadDicom env => load_dicom env w db
  | ConvertToNifti env => convert_to_nifti env w db
  | ViewNifti env => view_nifti env w db
  | LoadImage env => load_image env w db
  | ApplyMorphological show => apply_morphological show w db
  | CountCells draw => count_cells draw w db
  | SaveAnalysis env => save_analysis env w db
  end.

Inductive signal_operation : Type :=
| LoadMat (env : load_mat_env)
| PlotSignal (draw : result unit)
| AnalyzeSignal
| LoadCsv (env : load_csv_env)
| PlotCsv (draw : result unit)
| AnalyzeCsv (to_string : list (string * Z) -> string).

Definition run_signal (op : signal_operation) (w : signal_window) (db : database)
  : outcome * signal_window * database :=
  match op with
  | LoadMat env => load_mat env w db
  | PlotSignal draw => plot_signal draw w db
  | AnalyzeSignal => analyze_signal w db
  | LoadCsv env => load_csv env w db
  | PlotCsv draw => plot_csv draw w db
  | AnalyzeCsv to_string => analyze_csv to_string w db
  end.

(** ** The analysis log as a whole *)

(** [db'] is [db] with exactly one more row in one of the three log tables,
    that row carrying [user_id]. *)
Inductive appends_one (user_id : Z) (db db' : database) : Prop :=
| appends_dicom_file (row : dicom_files_row) :
    users db' = users db ->
    dicom_files db' = (dicom_files db ++ [row])%list ->
    image_analysis db' = image_analysis db ->
    signal_analysis db' = signal_analysis db ->
    d_user_id row = user_id ->
    appends_one user_id db db'
| appends_image_analysis (row : image_analysis_row) :
    users db' = users db ->
    dicom_files db' = dicom_files db ->
    image_analysis db' = (image_analysis db ++ [row])%list ->
    signal_analysis db' = signal_analysis db ->
    ia_user_id row = user_id ->
    appends_one user_id db db'
| appends_signal_analysis (row : signal_analysis_row) :
    users db' = users db ->
    dicom_files db' = dicom_files db ->
    image_analysis db' = image_analysis db ->
    signal_analysis db' = (signal_analysis db ++ [row])%list ->
    sa_user_id row = user_id ->
    appends_one user_id db db'.

Definition audit_records (db : database) : nat :=
  length (dicom_files db) + length (image_analysis db)
  + length (signal_analysis db).

Definition completed (o : outcome) : bool :=
  match o with
  | Completed _ => true
  | _ => false
  end.

(** The slots of the image window that call the log. *)
Definition logs (op : image_operation) : bool :=
  match op with
  | LoadDicom _ | ApplyMorphological _ | CountCells _ => true
  | ConvertToNifti _ | ViewNifti _ | LoadImage _ | SaveAnalysis _ => false
  end.

(** The rule "a completed operation appends exactly one record of the acting
    user, any other run appends none", at one click. *)
Definition audited_image (op : image_operation) (w : image_window)
    (db : database) : Prop :=
  let db' := snd (run_image op w db) in
  if completed (fst (fst (run_image op w db)))
  then appends_one (iw_user_id w) db db'
  else db' = db.

Definition audited_signal (op : signal_operation) (w : signal_window)
    (db : database) : Prop :=
  let db' := snd (run_signal op w db) in
  if completed (fst (fst (run_signal op w db)))
  then appends_one (sw_user_id w) db db'
  else db' = db.

(** ** Blobs: what the cell count is measured against *)

(** No pixel of one set touches (or is) a pixel of the other. *)
Definition separated (c1 c2 : list point) : Prop :=
  forall p q, In p c1 -> In q c2 -> adjacent8 p q = false.

(** A walk through pixels of [c], each step between 8-neighbours. *)
Inductive path (c : list point) : point -> point -> Prop :=
| path_here (p : point) : path c p p
| path_step (p q r : point) :
    In q c -> adjacent8 p q = true -> path c q r -> path c p r.

Definition connected (c : list point) : Prop :=
  forall p q, In p c -> In q c -> path c p q.

(** [cs] are the 8-connected components of the pixels [S]: non-empty,
    connected, pairwise apart, and covering exactly [S]. *)
Definition components_of (S : point -> Prop) (cs : list (list point)) : Prop :=
  Forall (fun c => c <> []) cs /\
  Forall connected cs /\
  ForallOrdPairs separated cs /\
  (forall p, S p <-> exists c, In c cs /\ In p c).

(** A pixel position of an [h] x [w] image. *)
Definition inside (h w : Z) (p : point) : Prop :=
  0 <= fst p < h /\ 0 <= snd p < w.

(** Chebyshev distance at most [a]: [q] is under the square window of size
    [2a+1] centred at [p]. *)
Definition near (a : Z) (p q : point) : Prop :=
  Z.abs (fst p - fst q) <= a /\ Z.abs (snd p - snd q) <= a.


Definition in_blob (p : point) (blob : list point) : bool :=
  existsb (fun q => (fst p =? fst q) && (snd p =? snd q)) blob.

(** The two-level test image: [foreground] on the pixels of the blobs,
    [background] elsewhere. *)
Definition synthetic (h w background foreground : Z) (blobs : list (list point))
  : gray_image :=
  tabulate h w
    (fun r c => if existsb (in_blob (r, c)) blobs then foreground else background).

(** The same image as [cv2.imread] hands it over: three equal channels. *)
Definition as_bgr (img : gray_image) : image :=
  BGR (map (map (fun v => (v, v, v))) img).


(** The pixels of an axis-aligned rectangle. *)
Definition rectangle (top left height width : Z) : list point :=
  list_prod (map (Z.add top) (range height)) (map (Z.add left) (range width)).

(** ** Vocabulary of the statements *)





(** A binary table: 255 on the pixels of [X], 0 on the others. *)
Definition binary_table (h w : Z) (X : point -> Prop) (f : Z -> Z -> Z) : Prop :=
  forall r c, inside h w (r, c) ->
    (f r c = 255 /\ X (r, c)) \/ (f r c = 0 /\ ~ X (r, c)).





(** ** Sample inputs *)

(** An image window that holds a 4 x 4 x 4 volume and a loaded 1 x 1
    image. *)
Definition sample_image_window : image_window :=
  with_image (Some (BGR [[(0, 0, 0)]])) (Some "cells.png")
    (fit_sliders [4; 4; 4] (with_volume {| vol_shape := [4; 4; 4] |}
                              (new_image_window 1))).

Definition export_env : convert_env :=
  {| cn_build := Ok tt; cn_filepath := "out.nii"; cn_save := Ok tt |}.

(** A slice directory that stacks to a 64 x 512 x 511 volume. *)
Definition dicom_env_64 : load_dicom_env :=
  {| ld_dir_path := "study";
     ld_read := Ok {| ds_volume := {| vol_shape := [64; 512; 511] |};
                      ds_patient_name := Some "DOE^JANE";
                      ds_patient_id := None |};
     ld_draw := Ok tt |}.

Definition ints (l : list Z) : cells := map (fun z => Some (inject_Z z)) l.



(** Two dark rectangles, 5 x 5 and 5 x 6, on a 9 x 20 bright field, and the
    image window once that picture is loaded. *)
Definition two_cells : gray_image :=
  synthetic 9 20 200 50 [rectangle 2 2 5 5; rectangle 2 10 5 6].

Definition two_cells_window : image_window :=
  with_image (Some (as_bgr two_cells)) (Some "cells.png") (new_image_window 1).

(** ** Runs of the image window *)

(** The volumes an operation is handed have no empty axis. *)
Definition positive_extents (shape : list Z) : Prop := Forall (fun dim => 1 <= dim) shape.

Definition offers_full_volumes (op : image_operation) : Prop :=
  match op with
  | LoadDicom env =>
      forall series, ld_read env = Ok series ->
                     positive_extents (vol_shape (ds_volume series))
  | ViewNifti env =>
      forall v, vn_load env = Ok v -> positive_extents (vol_shape v)
  | _ => True
  end.

(** The windows that arise from a new one by clicks whose volumes have no
    empty axis. *)
Inductive arises (user_id : Z) : image_window -> Prop :=
| arises_new : arises user_id (new_image_window user_id)
| arises_click (op : image_operation) (w w' : image_window) (db db' : database)
    (o : outcome) :
    arises user_id w ->
    offers_full_volumes op ->
    run_image op w db = (o, w', db') ->
    arises user_id w'.

(** One table is the other with rows added at its end. *)
Definition extends {A : Type} (old new : list A) : Prop :=
  exists added, new = (old ++ added)%list.

Definition append_only (db db' : database) : Prop :=
  users db' = users db /\
  extends (dicom_files db) (dicom_files db') /\
  extends (image_analysis db) (image_analysis db') /\
  extends (signal_analysis db) (signal_analysis db').


(** ** What the user does in a window *)

(** Besides the buttons the image window has three sliders and two combo
    boxes. A slider that is dragged takes the value within its range and,
    when the value changed, emits [valueChanged], whose slot is
    [update_dicom_view] ([setup_dicom_tab]); an exception of that slot is
    caught by nobody. A disabled slider does not follow the mouse. *)
Inductive axis : Type := Axial | Coronal | Sagital.

Definition slider_of (a : axis) (w : image_window) : QSlider :=
  match a with
  | Axial => iw_slider_axial w
  | Coronal => iw_slider_coronal w
  | Sagital => iw_slider_sagital w
  end.

Definition with_slider (a : axis) (s : QSlider) (w : image_window) : image_window :=
  match a with
  | Axial => with_sliders s (iw_slider_coronal w) (iw_slider_sagital w) w
  | Coronal => with_sliders (iw_slider_axial w) s (iw_slider_sagital w) w
  | Sagital => with_sliders (iw_slider_axial w) (iw_slider_coronal w) s w
  end.

Definition slider_moved (a : axis) (v : Z) (draw : result unit) (w : image_window)
  : outcome * image_window :=
  let s := slider_of a w in
  if enabled s then
    if value (setValue v s) =? value s then (Ignored, w)
    else
      let w1 := with_slider a (setValue v s) w in
      match update_dicom_view w1 draw with
      | Ok _ => (Completed None, w1)
      | Raise e => (Uncaught e, w1)
      end
  else (Ignored, w).

Definition with_morph (m : morph_choice) (k : kernel_choice) (w : image_window)
  : image_window :=
  {| iw_user_id := iw_user_id w;
     iw_current_image := iw_current_image w;
     iw_current_image_path := iw_current_image_path w;
     iw_dicom_volume := iw_dicom_volume w;
     iw_slider_axial := iw_slider_axial w;
     iw_slider_coronal := iw_slider_coronal w;
     iw_slider_sagital := iw_slider_sagital w;
     iw_patient_info := iw_patient_info w;
     iw_morph_op := m;
     iw_morph_kernel := k;
     iw_cell_count := iw_cell_count w |}.

Inductive image_event : Type :=
| ImageClicked (op : image_operation)
| SliderMoved (a : axis) (v : Z) (draw : result unit)
| MorphChosen (m : morph_choice)
| KernelChosen (k : kernel_choice).

Definition image_event_step (e : image_event) (w : image_window) (db : database)
  : outcome * image_window * database :=
  match e with
  | ImageClicked op => run_image op w db
  | SliderMoved a v draw => (slider_moved a v draw w, db)
  | MorphChosen m => (Completed None, with_morph m (iw_morph_kernel w) w, db)
  | KernelChosen k => (Completed None, with_morph (iw_morph_op w) k w, db)
  end.

(** The event loop hands the events to their slots one after the other. The
    run goes on after a slot that raised; a run that ends there is a run of
    the events up to it. *)
Fixpoint run_image_events (events : list image_event) (w : image_window)
    (db : database) : image_window * database :=
  match events with
  | [] => (w, db)
  | e :: rest =>
      run_image_events rest (snd (fst (image_event_step e w db)))
        (snd (image_event_step e w db))
  end.

(** In the signal window the user picks an entry of a combo box; only an
    entry that is listed can be picked. *)
Definition activated (i : nat) (cb : QComboBox) : QComboBox :=
  if (i <? length (cb_items cb))%nat
  then {| cb_items := cb_items cb; cb_index := Some i |}
  else cb.

Inductive signal_event : Type :=
| SignalClicked (op : signal_operation)
| SignalChosen (i : nat)
| XChosen (i : nat)
| YChosen (i : nat).

Definition signal_event_step (e : signal_event) (w : signal_window) (db : database)
  : outcome * signal_window * database :=
  match e with
  | SignalClicked op => run_signal op w db
  | SignalChosen i =>
      (Completed None,
       {| sw_user_id := sw_user_id w;
          sw_mat_data := sw_mat_data w;
          sw_df := sw_df w;
          sw_signal_combo := activated i (sw_signal_combo w);
          sw_csv_x := sw_csv_x w;
          sw_csv_y := sw_csv_y w |}, db)
  | XChosen i =>
      (Completed None,
       {| sw_user_id := sw_user_id w;
          sw_mat_data := sw_mat_data w;
          sw_df := sw_df w;
          sw_signal_combo := sw_signal_combo w;
          sw_csv_x := activated i (sw_csv_x w);
          sw_csv_y := sw_csv_y w |}, db)
  | YChosen i =>
      (Completed None,
       {| sw_user_id := sw_user_id w;
          sw_mat_data := sw_mat_data w;
          sw_df := sw_df w;
          sw_signal_combo := sw_signal_combo w;
          sw_csv_x := sw_csv_x w;
          sw_csv_y := activated i (sw_csv_y w) |}, db)
  end.

Fixpoint run_signal_events (events : list signal_event) (w : signal_window)
    (db : database) : signal_window * database :=
  match events with
  | [] => (w, db)
  | e :: rest =>
      run_signal_events rest (snd (fst (signal_event_step e w db)))
        (snd (signal_event_step e w db))
  end.

(** What the rows written by the image window look like: the acting user,
    and for a study no derived path, date or modality. *)
Definition study_row_of (user_id : Z) (row : dicom_files_row) : Prop :=
  d_user_id row = user_id /\ d_nifti_path row = "" /\
  d_study_date row = None /\ d_modality row = None.

Definition image_row_of (user_id : Z) (row : image_analysis_row) : Prop :=
  ia_user_id row = user_id /\
  ((ia_analysis_type row = "morphological" /\ ia_result row = "success") \/
   ia_analysis_type row = "cell_count").

(** What the rows written by the signal window look like: only a load keeps
    the path of its file. *)
Definition signal_row_of (user_id : Z) (row : signal_analysis_row) : Prop :=
  sa_user_id row = user_id /\
  (sa_signal_type row = "MAT" \/ sa_signal_type row = "CSV") /\
  ((sa_analysis_type row = "load" /\ sa_file_path row <> "" /\ sa_result row = "success") \/
   (sa_analysis_type row = "plot" /\ sa_file_path row = "" /\ sa_result row = "success") \/
   (sa_analysis_type row = "basic_analysis" /\ sa_file_path row = "")).

(** ** The application *)

(** [LoginWindow.__init__]: empty fields, the image expert's radio button
    checked, no main window yet. *)
Definition new_login_window : login_window :=
  {| lw_username := ""; lw_password := ""; lw_btn_imagen := true;
     lw_main_window := None |}.

(** Everything the user can do: fill in the form, press its two buttons,
    and act in the main window that a login opened. The form is hidden by
    the login that opens the main window; events of a window that is not
    there change nothing. *)
Inductive app_event : Type :=
| UsernameTyped (text : string)
| PasswordTyped (text : string)
| RoleChosen (imagen : bool)
| LoginClicked
| RegisterClicked
| InImageWindow (e : image_event)
| InSignalWindow (e : signal_event).

Definition with_main_window (mw : option main_window) (lw : login_window)
  : login_window :=
  {| lw_username := lw_username lw;
     lw_password := lw_password lw;
     lw_btn_imagen := lw_btn_imagen lw;
     lw_main_window := mw |}.

Definition app_step (e : app_event) (lw : login_window) (db : database)
  : login_window * database :=
  match e, lw_main_window lw with
  | UsernameTyped text, None =>
      ({| lw_username := text; lw_password := lw_password lw;
          lw_btn_imagen := lw_btn_imagen lw; lw_main_window := None |}, db)
  | PasswordTyped text, None =>
      ({| lw_username := lw_username lw; lw_password := text;
          lw_btn_imagen := lw_btn_imagen lw; lw_main_window := None |}, db)
  | RoleChosen imagen, None =>
      ({| lw_username := lw_username lw; lw_password := lw_password lw;
          lw_btn_imagen := imagen; lw_main_window := None |}, db)
  | LoginClicked, None => (snd (handle_login lw db), db)
  | RegisterClicked, None => (lw, snd (handle_register lw db))
  | InImageWindow ev, Some (ImageExpertWindow w) =>
      (with_main_window
         (Some (ImageExpertWindow (snd (fst (image_event_step ev w db))))) lw,
       snd (image_event_step ev w db))
  | InSignalWindow ev, Some (SignalExpertWindow w) =>
      (with_main_window
         (Some (SignalExpertWindow (snd (fst (signal_event_step ev w db))))) lw,
       snd (signal_event_step ev w db))
  | _, _ => (lw, db)
  end.

Fixpoint run_app (events : list app_event) (lw : login_window) (db : database)
  : login_window * database :=
  match events with
  | [] => (lw, db)
  | e :: rest => run_app rest (fst (app_step e lw db)) (snd (app_step e lw db))
  end.

(** The user with this id is registered, as an image expert or not. *)
Definition registered_as (db : database) (user_id : Z) (imagen : bool) : Prop :=
  exists row, In row (users db) /\ u_id row = user_id /\
              String.eqb (u_user_type row) "imagen" = imagen.

(** The FOREIGN KEY clauses of [create_tables], with the role added: the
    rows of the two image tables belong to registered image experts, those
    of the signal table to registered users who are not. *)
Definition log_ok (db : database) : Prop :=
  Forall (fun row => registered_as db (d_user_id row) true) (dicom_files db) /\
  Forall (fun row => registered_as db (ia_user_id row) true) (image_analysis db) /\
  Forall (fun row => registered_as db (sa_user_id row) false) (signal_analysis db).

(** The main window a login opened acts for a registered user of its role. *)
Definition window_ok (lw : login_window) (db : database) : Prop :=
  match lw_main_window lw with
  | None => True
  | Some (ImageExpertWindow w) => registered_as db (iw_user_id w) true
  | Some (SignalExpertWindow w) => registered_as db (sw_user_id w) false
  end.

(** ** What holds in every window that can be reached *)



(** A slider whose range is the index range of an axis of extent [dim]. *)
Definition slider_inside (dim : Z) (s : QSlider) : Prop :=
  minimum s = 0 /\ maximum s = dim - 1 /\ 0 <= value s < dim.

(** The sliders start at 0, and those of a volume with three axes or more
    stay within its first three. *)
Definition sliders_inside (w : image_window) : Prop :=
  minimum (iw_slider_axial w) = 0 /\
  minimum (iw_slider_coronal w) = 0 /\
  minimum (iw_slider_sagital w) = 0 /\
  forall v a b c rest,
    iw_dicom_volume w = Some v -> vol_shape v = a :: b :: c :: rest ->
    slider_inside a (iw_slider_axial w) /\
    slider_inside b (iw_slider_coronal w) /\
    slider_inside c (iw_slider_sagital w).

Definition full_volume_event (e : image_event) : Prop :=
  match e with
  | ImageClicked op => offers_full_volumes op
  | _ => True
  end.

(** ** The redraws inside a load *)

(** One turn of the loop of [load_dicom] and [view_nifti], on the slider of
    one axis. [setMaximum] emits [valueChanged] when it has to re-bound the
    value, [setValue] when the value it sets is a new one; each emission
    runs [update_dicom_view] at once, on the window as it is then: the new
    volume is in place and the sliders of the later axes are not yet set.
    The result lists those windows and gives the window after the turn. *)
Definition refit (a : axis) (dim : Z) (w : image_window)
  : list image_window * image_window :=
  let s := slider_of a w in
  let s1 := setMaximum (dim - 1) s in
  let s2 := setValue (dim / 2) s1 in
  (((if value s1 =? value s then [] else [with_slider a s1 w])
    ++ (if value s2 =? value s1 then [] else [with_slider a s2 w]))%list,
   with_slider a (setEnabled true s2) w).

Fixpoint refit_all (axes : list axis) (shape : list Z) (w : image_window)
  : list image_window * image_window :=
  match axes, shape with
  | a :: axes', dim :: shape' =>
      ((fst (refit a dim w) ++ fst (refit_all axes' shape' (snd (refit a dim w))))%list,
       snd (refit_all axes' shape' (snd (refit a dim w))))
  | _, _ => ([], w)
  end.

Definition all_axes : list axis := [Axial; Coronal; Sagital].

(** ** More sample inputs *)

(** A visit: register as an image expert, log in, load the picture of the
    two cells and count them. *)
Definition sample_visit : list app_event :=
  [UsernameTyped "ana"; PasswordTyped "s3cret"; RegisterClicked; LoginClicked;
   InImageWindow (ImageClicked (LoadImage {| li_filepath := "cells.png";
                                             li_imread := Some (as_bgr two_cells);
                                             li_show := Ok tt |}));
   InImageWindow (ImageClicked (CountCells (Ok tt)))].

(** Loading the 64 x 512 x 511 study and dragging two sliders beyond their
    ends. *)
Definition sample_drags : list image_event :=
  [ImageClicked (LoadDicom dicom_env_64);
   SliderMoved Axial 1000 (Ok tt);
   SliderMoved Sagital (-5) (Ok tt)].



Definition study_volume : volume := {| vol_shape := [64; 512; 511] |}.

(** A file that is no picture. *)
Definition text_file_env : load_image_env :=
  {| li_filepath := "notes.txt"; li_imread := None; li_show := Ok tt |}.


(** * Verification *)

(** ** hashlib.sha256 against known digests *)

Example sha256_abc :
  sha256_hexdigest "abc"
  = "ba7816bf8f01cfea414140de5dae2223b00361a396177a9cb410ff61f20015ad"%string.
Proof. vm_compute. reflexivity. Qed.

Example sha256_empty :
  sha256_hexdigest ""
  = "e3b0c44298fc1c149afbf4c8996fb92427ae41e4649b934ca495991b7852b855"%string.
Proof. vm_compute. reflexivity. Qed.

Example sha256_admin123 :
  sha256_hexdigest "admin123"
  = "240be518fabd2724ddb6f04eeb1da5967448d7e831c08c8fa822809f74c720a9"%string.
Proof. vm_compute. reflexivity. Qed.

(** ** The credential store *)

Lemma username_taken_false (db : database) (username : string) :
  username_taken db username = false <->
  (forall row, In row (users db) -> u_username row <> username).
Proof.
  unfold username_taken. split.
  - intros H row Hin Heq.
    assert (existsb (fun r => String.eqb (u_username r) username) (users db) = true) as Ht.
    { apply existsb_exists. exists row. split; [exact Hin|].
      apply String.eqb_eq. exact Heq. }
    congruence.
  - intros H. destruct (existsb _ (users db)) eqn:E; [|reflexivity].
    apply existsb_exists in E. destruct E as [row [Hin Heq]].
    apply String.eqb_eq in Heq. exfalso. exact (H row Hin Heq).
Qed.

Lemma username_taken_true (db : database) (username : string) :
  username_taken db username = true <->
  (exists row, In row (users db) /\ u_username row = username).
Proof.
  unfold username_taken. rewrite existsb_exists. split.
  - intros [row [Hin Heq]]. exists row. split; [exact Hin|].
    apply String.eqb_eq. exact Heq.
  - intros [row [Hin Heq]]. exists row. split; [exact Hin|].
    apply String.eqb_eq. exact Heq.
Qed.

Lemma fold_max_upper (ids : list Z) (x : Z) :
  In x ids -> x <= fold_right Z.max 0 ids.
Proof.
  induction ids as [|y ids IH]; simpl; intros Hin.
  - contradiction.
  - destruct Hin as [-> | Hin]; [lia|]. specialize (IH Hin). lia.
Qed.

Lemma next_rowid_fresh (ids : list Z) : ~ In (next_rowid ids) ids.
Proof.
  intros Hin. apply fold_max_upper in Hin. unfold next_rowid in Hin. lia.
Qed.


Lemma find_none_app {A : Type} (f : A -> bool) (l1 l2 : list A) :
  find f l1 = None -> find f (l1 ++ l2) = find f l2.
Proof.
  induction l1 as [|x l1 IH]; simpl; intros H; [reflexivity|].
  destruct (f x); [discriminate|]. apply IH. exact H.
Qed.

Lemma find_no_username (db : database) (username hashed : string) :
  username_taken db username = false ->
  find (fun r => String.eqb (u_username r) username
                 && String.eqb (u_password r) hashed) (users db) = None.
Proof.
  intros H. rewrite username_taken_false in H.
  destruct (find _ (users db)) as [row|] eqn:E; [|reflexivity].
  apply find_some in E. destruct E as [Hin Hb].
  apply andb_true_iff in Hb. destruct Hb as [Hu _].
  apply String.eqb_eq in Hu. exfalso. exact (H row Hin Hu).
Qed.

(** What [register_user] does on a free name, shared by the statements
    below. *)
Lemma register_then_login_store (db : database) (username password user_type : string) :
  (forall row, In row (users db) -> u_username row <> username) ->
  exists db',
    register_user db username password user_type = (true, db') /\
    users db' = (users db ++
                 [{| u_id := next_rowid (map u_id (users db));
                     u_username := username;
                     u_password := sha256_hexdigest password;
                     u_user_type := user_type |}])%list.
Proof.
  intros Hfree. apply username_taken_false in Hfree.
  unfold register_user. rewrite Hfree.
  eexists. split; reflexivity.
Qed.

Lemma login_after_register (db db' : database) (username password user_type : string) :
  (forall row, In row (users db) -> u_username row <> username) ->
  register_user db username password user_type = (true, db') ->
  login_user db' username password
  = Some (next_rowid (map u_id (users db)), user_type).
Proof.
  intros Hfree Hreg. apply username_taken_false in Hfree.
  unfold register_user in Hreg. rewrite Hfree in Hreg.
  inversion Hreg; subst; clear Hreg.
  unfold login_user. cbn [users].
  rewrite find_none_app by (apply find_no_username; exact Hfree).
  cbn. rewrite !String.eqb_refl. reflexivity.
Qed.

(** C1. Registering a name that no user holds succeeds, appends one row with
    a fresh id, the digest of the password and the given role, and a login
    with the same name and password then returns that id and that role.
    Emptiness of the name or password plays no part in the store. *)
Theorem register_then_login (db : database) (username password user_type : string) :
  (forall row, In row (users db) -> u_username row <> username) ->
  exists db',
    register_user db username password user_type = (true, db') /\
    users db' = (users db ++
                 [{| u_id := next_rowid (map u_id (users db));
                     u_username := username;
                     u_password := sha256_hexdigest password;
                     u_user_type := user_type |}])%list /\
    (forall row, In row (users db) -> u_id row <> next_rowid (map u_id (users db))) /\
    login_user db' username password
    = Some (next_rowid (map u_id (users db)), user_type).
Proof.
  intros Hfree. apply username_taken_false in Hfree.
  unfold register_user. rewrite Hfree.
  eexists. split; [reflexivity|]. split; [reflexivity|]. split.
  - intros row Hin Heq. apply (next_rowid_fresh (map u_id (users db))).
    rewrite <- Heq. apply in_map. exact Hin.
  - unfold login_user. cbn [users].
    rewrite find_none_app by (apply find_no_username; exact Hfree).
    cbn. rewrite !String.eqb_refl. reflexivity.
Qed.

Lemma register_then_login_witness :
  exists db',
    register_user (bootstrap empty_database) "ana" "s3cret" "senal" = (true, db') /\
    login_user db' "ana" "s3cret" = Some (3, "senal").
Proof.
  destruct (register_then_login (bootstrap empty_database) "ana" "s3cret" "senal")
    as [db' [Hreg [_ [_ Hlogin]]]].
  - intros row Hin Heq. vm_compute in Hin.
    destruct Hin as [<- | [<- | []]]; discriminate Heq.
  - exists db'. split; [exact Hreg|]. exact Hlogin.
Defined.

(** C2. Registering a name that a user already holds returns failure and the
    database after the call is the database before it: no row is added and
    the holder's id, digest and role are untouched. *)
Theorem register_duplicate_rejected (db : database) (username password user_type : string) :
  (exists row, In row (users db) /\ u_username row = username) ->
  register_user db username password user_type = (false, db).
Proof.
  intros H. apply username_taken_true in H.
  unfold register_user. rewrite H. reflexivity.
Qed.

Lemma register_duplicate_rejected_witness :
  register_user (bootstrap empty_database) "admin_img" "other" "senal"
  = (false, bootstrap empty_database).
Proof.
  apply register_duplicate_rejected.
  exists {| u_id := 1; u_username := "admin_img";
            u_password := sha256_hexdigest "admin123"; u_user_type := "imagen" |}.
  split; [vm_compute; left; reflexivity | reflexivity].
Defined.

(** C3. A login with a name that is not registered and a login with a
    registered name whose stored digest differs from the digest of the
    password given return the same value, [None]. *)
Theorem login_failures_indistinguishable (db : database) (u1 p1 u2 p2 : string) :
  (forall row, In row (users db) -> u_username row <> u1) ->
  (exists row, In row (users db) /\ u_username row = u2) ->
  (forall row, In row (users db) -> u_username row = u2 ->
               u_password row <> sha256_hexdigest p2) ->
  login_user db u1 p1 = None /\
  login_user db u2 p2 = None /\
  login_user db u1 p1 = login_user db u2 p2.
Proof.
  intros Hunknown _ Hwrong.
  assert (login_user db u1 p1 = None) as H1.
  { unfold login_user. rewrite find_no_username; [reflexivity|].
    apply username_taken_false. exact Hunknown. }
  assert (login_user db u2 p2 = None) as H2.
  { unfold login_user.
    destruct (find _ (users db)) as [row|] eqn:E; [|reflexivity].
    apply find_some in E. destruct E as [Hin Hb].
    apply andb_true_iff in Hb. destruct Hb as [Hu Hp].
    apply String.eqb_eq in Hu. apply String.eqb_eq in Hp.
    exfalso. exact (Hwrong row Hin Hu Hp). }
  rewrite H1, H2. repeat split.
Qed.

Lemma login_failures_indistinguishable_witness :
  login_user (bootstrap empty_database) "nobody" "admin123" = None /\
  login_user (bootstrap empty_database) "admin_sig" "admin124" = None /\
  login_user (bootstrap empty_database) "nobody" "admin123"
  = login_user (bootstrap empty_database) "admin_sig" "admin124".
Proof.
  apply login_failures_indistinguishable.
  - intros row Hin Heq. vm_compute in Hin.
    destruct Hin as [<- | [<- | []]]; discriminate Heq.
  - exists {| u_id := 2; u_username := "admin_sig";
              u_password := sha256_hexdigest "admin123"; u_user_type := "senal" |}.
    split; [vm_compute; right; left; reflexivity | reflexivity].
  - intros row Hin Heq. vm_compute in Hin. vm_compute.
    destruct Hin as [<- | [<- | []]]; intros Hp; discriminate.
Defined.

(** C8. The store itself accepts the empty username: when no user holds it,
    [register_user] with username [""] succeeds and adds a row whose
    username is empty. The check for empty fields sits in the handlers of
    the login window, which answer with a warning and leave the store alone
    when a field is empty. *)
Theorem register_accepts_empty_username (db : database) (password user_type : string) :
  (forall row, In row (users db) -> u_username row <> "") ->
  (exists db',
     register_user db "" password user_type = (true, db') /\
     In {| u_id := next_rowid (map u_id (users db));
           u_username := "";
           u_password := sha256_hexdigest password;
           u_user_type := user_type |} (users db')) /\
  (forall w,
     lw_username w = "" \/ lw_password w = "" ->
     handle_register w db
     = (Warning "Error" "Por favor complete todos los campos", db)) /\
  (forall w,
     lw_username w = "" \/ lw_password w = "" ->
     handle_login w db
     = (Some (Warning "Error" "Por favor complete todos los campos"), w)).
Proof.
  intros Hfree. split; [|split].
  - destruct (register_then_login_store db "" password user_type Hfree)
      as [db' [Hreg Husers]].
    exists db'. split; [exact Hreg|].
    rewrite Husers. apply in_or_app. right. left. reflexivity.
  - intros w [H | H]; unfold handle_register; rewrite H.
    + reflexivity.
    + destruct (lw_username w); reflexivity.
  - intros w [H | H]; unfold handle_login; rewrite H.
    + reflexivity.
    + destruct (lw_username w); reflexivity.
Qed.

Lemma register_accepts_empty_username_witness :
  exists db',
    register_user (bootstrap empty_database) "" "pw" "imagen" = (true, db') /\
    In {| u_id := 3; u_username := "";
          u_password := sha256_hexdigest "pw"; u_user_type := "imagen" |}
       (users db').
Proof.
  apply (register_accepts_empty_username (bootstrap empty_database) "pw" "imagen").
  intros row Hin Heq. vm_compute in Hin.
  destruct Hin as [<- | [<- | []]]; discriminate Heq.
Defined.

(** ** The role router *)

(** C9. The factory tests the stored role against ['imagen'] only: that
    exact string builds the image window, every other string (['senal'] or
    anything else) builds the signal window. *)
Theorem MainWindow_dispatch (user_id : Z) (user_type : string) :
  (user_type = "imagen" ->
   MainWindow user_id user_type = ImageExpertWindow (new_image_window user_id)) /\
  (user_type <> "imagen" ->
   MainWindow user_id user_type = SignalExpertWindow (new_signal_window user_id)).
Proof.
  unfold MainWindow. split; intros H.
  - rewrite H. reflexivity.
  - apply String.eqb_neq in H. rewrite H. reflexivity.
Qed.

Example MainWindow_unlisted_role :
  MainWindow 7 "Imagen" = SignalExpertWindow (new_signal_window 7) /\
  MainWindow 7 "" = SignalExpertWindow (new_signal_window 7) /\
  MainWindow 7 "senal" = SignalExpertWindow (new_signal_window 7) /\
  MainWindow 7 "imagen" = ImageExpertWindow (new_image_window 7).
Proof. repeat split. Qed.

(** A successful login opens the window of the stored role. *)
Lemma handle_login_opens (w : login_window) (db : database) (id : Z) (role : string) :
  lw_username w <> "" -> lw_password w <> "" ->
  lw_main_window w = None ->
  login_user db (lw_username w) (lw_password w) = Some (id, role) ->
  lw_main_window (snd (handle_login w db)) = Some (MainWindow id role).
Proof.
  intros Hu Hp Hnone Hlogin. unfold handle_login.
  destruct (lw_username w) eqn:Eu; [congruence|].
  destruct (lw_password w) eqn:Ep; [congruence|].
  cbn [is_empty orb]. rewrite Hlogin. cbn. rewrite Hnone. reflexivity.
Qed.

(** ** The analysis log *)

(** Case analysis on every test of a handler whose run is the hypothesis
    [H], ending with the equations between the two results. *)
Ltac run_cases H :=
  repeat match type of H with
         | context [match ?x with _ => _ end] => destruct x eqn:?
         | context [if ?x then _ else _] => destruct x eqn:?
         end;
  inversion H; subst; clear H.

Lemma appends_one_ne (user_id : Z) (db : database) : ~ appends_one user_id db db.
Proof.
  intros H.
  assert (forall (A : Type) (l : list A) (x : A), l <> (l ++ [x])%list) as Hne.
  { intros A l x Heq. apply (f_equal (@length A)) in Heq.
    rewrite length_app in Heq. cbn in Heq. lia. }
  destruct H as [row _ H _ _ _ | row _ _ H _ _ | row _ _ _ H _];
    exact (Hne _ _ _ H).
Qed.

Lemma save_dicom_analysis_appends (db : database) (pid pname path nifti : string) (uid : Z) :
  appends_one uid db (save_dicom_analysis db pid pname path nifti uid).
Proof. eapply appends_dicom_file; reflexivity. Qed.

Lemma save_image_analysis_appends (db : database) (path kind : string)
    (params : pydict) (result : string) (uid : Z) :
  appends_one uid db (save_image_analysis db path kind params result uid).
Proof. eapply appends_image_analysis; reflexivity. Qed.

Lemma save_signal_analysis_appends (db : database) (path signal kind : string)
    (params : pydict) (result : string) (uid : Z) :
  appends_one uid db (save_signal_analysis db path signal kind params result uid).
Proof. eapply appends_signal_analysis; reflexivity. Qed.

Lemma appends_one_audit_records (uid : Z) (db db' : database) :
  appends_one uid db db' -> audit_records db' = S (audit_records db).
Proof.
  intros [row Hu Hd Hi Hs _ | row Hu Hd Hi Hs _ | row Hu Hd Hi Hs _];
    unfold audit_records; rewrite Hd, Hi, Hs, length_app; cbn; lia.
Qed.

Create HintDb audit.

#[local] Hint Resolve save_dicom_analysis_appends save_image_analysis_appends
  save_signal_analysis_appends : audit.

Lemma signal_slots_audited (op : signal_operation) (w : signal_window) (db : database) :
  audited_signal op w db.
Proof.
  unfold audited_signal.
  destruct (run_signal op w db) as [[o w'] db'] eqn:Hrun. cbn [fst snd].
  destruct op; cbn [run_signal] in Hrun;
    [ unfold load_mat in Hrun | unfold plot_signal in Hrun
    | unfold analyze_signal in Hrun | unfold load_csv in Hrun
    | unfold plot_csv in Hrun | unfold analyze_csv in Hrun ];
    run_cases Hrun; cbn [completed]; auto with audit.
Qed.

Lemma image_slots_without_log (op : image_operation) (w : image_window) (db : database) :
  logs op = false -> snd (run_image op w db) = db.
Proof.
  destruct (run_image op w db) as [[o w'] db'] eqn:Hrun. cbn [snd].
  destruct op; cbn [logs run_image] in *; intros H; try discriminate H;
    [ unfold convert_to_nifti in Hrun | unfold view_nifti in Hrun
    | unfold load_image, show_image in Hrun | unfold save_analysis in Hrun ];
    run_cases Hrun; reflexivity.
Qed.

Lemma image_slots_audited (op : image_operation) (w : image_window) (db : database) :
  logs op = true -> (forall env, op <> LoadDicom env) -> audited_image op w db.
Proof.
  unfold audited_image.
  destruct (run_image op w db) as [[o w'] db'] eqn:Hrun. cbn [fst snd].
  destruct op; cbn [logs run_image] in *; intros H Hne; try discriminate H.
  - exfalso. exact (Hne env eq_refl).
  - unfold apply_morphological in Hrun. run_cases Hrun; cbn [completed];
      auto with audit.
  - unfold count_cells in Hrun. run_cases Hrun; cbn [completed];
      auto with audit.
Qed.

Lemma load_dicom_audited (env : load_dicom_env) (w : image_window) (db : database)
    (o : outcome) (w' : image_window) (db' : database) :
  load_dicom env w db = (o, w', db') ->
  (completed o = true -> appends_one (iw_user_id w) db db') /\
  (o = Ignored -> db' = db) /\
  (forall e, ld_read env = Raise e -> db' = db).
Proof.
  unfold load_dicom. intros H.
  destruct (is_empty (ld_dir_path env)).
  { inversion H; subst. repeat split; try reflexivity. discriminate. }
  destruct (ld_read env) as [series | e0].
  2:{ inversion H; subst. repeat split; try reflexivity. discriminate. }
  destruct (update_dicom_view _ _); inversion H; subst;
    (split; [intros _; auto with audit | split; [discriminate | discriminate]]).
Qed.

(** C4, as the code has it. Every slot of the signal window, and the
    morphological operation and the cell count of the image window, append
    exactly one record carrying the acting user's id when they complete and
    none otherwise. The volume load appends exactly one such record when it
    completes, none when its dialog is cancelled and none when reading the
    slices fails. The volume export, the NIfTI view, the 2D image load and
    the image save never write to the log, completed or not. *)
Theorem audit_trail :
  (forall op w db, audited_signal op w db) /\
  (forall op w db,
     logs op = true -> (forall env, op <> LoadDicom env) -> audited_image op w db) /\
  (forall env w db o w' db',
     load_dicom env w db = (o, w', db') ->
     (completed o = true -> appends_one (iw_user_id w) db db') /\
     (o = Ignored -> db' = db) /\
     (forall e, ld_read env = Raise e -> db' = db)) /\
  (forall op w db, logs op = false -> snd (run_image op w db) = db).
Proof.
  split; [exact signal_slots_audited|].
  split; [exact image_slots_audited|].
  split; [exact load_dicom_audited|].
  exact image_slots_without_log.
Qed.

Lemma audit_trail_witness :
  audited_signal (LoadMat {| lm_filepath := "ecg.mat"; lm_loadmat := Ok [] |})
    (new_signal_window 2) empty_database /\
  audited_image (CountCells (Ok tt)) sample_image_window empty_database /\
  snd (run_image (ConvertToNifti export_env) sample_image_window empty_database)
  = empty_database.
Proof.
  destruct audit_trail as [Hsignal [Himage [_ Hsilent]]].
  split; [apply Hsignal|]. split.
  - apply Himage; [reflexivity | discriminate].
  - apply Hsilent. reflexivity.
Defined.

(** C4 as stated fails: a volume export that completes leaves the log as it
    was. *)
Lemma export_is_not_audited :
  fst (fst (run_image (ConvertToNifti export_env) sample_image_window empty_database))
  = Completed (Some (Information "Éxito" "Archivo NIfTI guardado")) /\
  ~ audited_image (ConvertToNifti export_env) sample_image_window empty_database.
Proof.
  split; [reflexivity|].
  unfold audited_image. cbn. apply appends_one_ne.
Qed.

(** The image save and the 2D image load complete without a record too. *)
Example save_and_load_image_are_not_audited :
  ~ audited_image (SaveAnalysis {| sv_filepath := "out.png"; sv_imwrite := Ok tt |})
      sample_image_window empty_database /\
  ~ audited_image
      (LoadImage {| li_filepath := "a.png"; li_imread := Some (BGR [[(0, 0, 0)]]);
                    li_show := Ok tt |})
      sample_image_window empty_database.
Proof.
  split; unfold audited_image; cbn; apply appends_one_ne.
Qed.

(** A volume load whose final display fails (here slices of several
    frames, which stack to four axes) has already written its record. *)
Example load_dicom_failed_display_is_recorded :
  let env := {| ld_dir_path := "study";
                ld_read := Ok {| ds_volume := {| vol_shape := [4; 2; 4; 4] |};
                                 ds_patient_name := None;
                                 ds_patient_id := None |};
                ld_draw := Raise "Invalid shape (2, 4, 4) for image data" |} in
  completed (fst (fst (load_dicom env (new_image_window 1) empty_database))) = false /\
  audit_records (snd (load_dicom env (new_image_window 1) empty_database)) = 1%nat.
Proof. split; reflexivity. Qed.



(** ** The axis sliders *)

Lemma fit_slider_spec (dim : Z) (s : QSlider) :
  minimum s = 0 -> 1 <= dim ->
  fit_slider dim s
  = {| minimum := 0; maximum := dim - 1; value := dim / 2; enabled := true |}.
Proof.
  intros Hmin Hdim. unfold fit_slider, setEnabled, setMaximum, setRange, setValue.
  cbn [minimum maximum value enabled]. rewrite Hmin.
  assert (0 <= dim / 2 <= dim - 1) as Hhalf.
  { split; [apply Z.div_pos; lia|].
    assert (dim / 2 < dim) by (apply Z.div_lt; lia). lia. }
  f_equal; lia.
Qed.

(** On an empty axis the slider collapses to -1, an index numpy refuses. *)
Lemma fit_slider_empty_axis (dim : Z) (s : QSlider) :
  minimum s = 0 -> dim <= 0 ->
  index_ok dim (value (fit_slider dim s)) = false.
Proof.
  intros Hmin Hdim. unfold fit_slider, setEnabled, setMaximum, setRange, setValue, index_ok.
  cbn [minimum maximum value enabled]. rewrite Hmin.
  apply andb_false_iff.
  destruct (Z.leb_spec (- dim) (Z.max (Z.min 0 (dim - 1))
                                  (Z.min (Z.max (Z.min 0 (dim - 1)) (dim - 1)) (dim / 2))));
    [right; apply Z.ltb_ge | left; reflexivity].
  assert (dim / 2 <= 0) by (apply Z.div_le_upper_bound; lia). lia.
Qed.





Example sliders_after_load_values :
  let w' := snd (fst (load_dicom dicom_env_64 (new_image_window 1) empty_database)) in
  map value [iw_slider_axial w'; iw_slider_coronal w'; iw_slider_sagital w']
  = [32; 256; 255] /\
  map maximum [iw_slider_axial w'; iw_slider_coronal w'; iw_slider_sagital w']
  = [63; 511; 510].
Proof. split; reflexivity. Qed.

(** The minimum stays 0 through every load that completes. *)
Lemma slider_minimum_kept (op : image_operation) (w w' : image_window)
    (db db' : database) (shown : option message_box) :
  minimum (iw_slider_axial w) = 0 ->
  minimum (iw_slider_coronal w) = 0 ->
  minimum (iw_slider_sagital w) = 0 ->
  run_image op w db = (Completed shown, w', db') ->
  minimum (iw_slider_axial w') = 0 /\
  minimum (iw_slider_coronal w') = 0 /\
  minimum (iw_slider_sagital w') = 0.
Proof.
  intros Ha Hb Hc Hrun.
  assert (forall shape draw u,
            update_dicom_view (fit_sliders shape (with_volume {| vol_shape := shape |} w)) draw
            = Ok u ->
            exists A B C rest, shape = A :: B :: C :: rest /\ 1 <= A /\ 1 <= B /\ 1 <= C)
    as Hview.
  { intros shape draw u. unfold update_dicom_view.
    destruct shape as [|A [|B [|C rest]]]; cbn -[fit_slider index_ok];
      try discriminate.
    destruct (index_ok A _) eqn:Ea; [|discriminate].
    destruct (index_ok B _) eqn:Eb; [|discriminate].
    destruct (index_ok C _) eqn:Ec; [|discriminate].
    intros _. exists A, B, C, rest. split; [reflexivity|].
    repeat split.
    - destruct (Z_le_gt_dec 1 A) as [H|H]; [exact H|].
      rewrite fit_slider_empty_axis in Ea by (trivial; lia). discriminate.
    - destruct (Z_le_gt_dec 1 B) as [H|H]; [exact H|].
      rewrite fit_slider_empty_axis in Eb by (trivial; lia). discriminate.
    - destruct (Z_le_gt_dec 1 C) as [H|H]; [exact H|].
      rewrite fit_slider_empty_axis in Ec by (trivial; lia). discriminate. }
  destruct op; cbn [run_image] in Hrun.
  - unfold load_dicom in Hrun.
    destruct (is_empty _); [discriminate|].
    destruct (ld_read env) as [[[shape] pname pid]|]; [|discriminate].
    cbn [ds_volume vol_shape ds_patient_name ds_patient_id] in Hrun.
    destruct (update_dicom_view _ _) as [u|] eqn:Hv; [|discriminate].
    inversion Hrun; subst; clear Hrun.
    apply Hview in Hv. destruct Hv as [A [B [C [rest [-> [HA [HB HC]]]]]]].
    cbn -[fit_slider]. rewrite !fit_slider_spec by assumption. repeat split.
  - unfold convert_to_nifti in Hrun. run_cases Hrun. repeat split; assumption.
  - unfold view_nifti in Hrun.
    destruct (is_empty _); [discriminate|].
    destruct (vn_load env) as [[shape]|]; [|discriminate].
    cbn [vol_shape] in Hrun.
    destruct (update_dicom_view _ _) as [u|] eqn:Hv; [|discriminate].
    inversion Hrun; subst; clear Hrun.
    apply Hview in Hv. destruct Hv as [A [B [C [rest [-> [HA [HB HC]]]]]]].
    cbn -[fit_slider]. rewrite !fit_slider_spec by assumption. repeat split.
  - unfold load_image in Hrun. run_cases Hrun. repeat split; assumption.
  - unfold apply_morphological in Hrun. run_cases Hrun. repeat split; assumption.
  - unfold count_cells in Hrun. run_cases Hrun. repeat split; assumption.
  - unfold save_analysis in Hrun. run_cases Hrun. repeat split; assumption.
Qed.

(** ** Column analysis *)
















Example value_counts_sample :
  value_counts [Some "b"; Some "a"; None; Some "a"; Some "c"; Some "c"; Some "c"]
  = [("c", 3); ("a", 2); ("b", 1)].
Proof. reflexivity. Qed.

(** A column with a single number has no sample deviation: pandas gives NaN
    and the format prints it as [nan]. *)
Example single_value_deviation :
  format_2f (pd_std (ints [5])) = "nan" /\ format_2f (pd_mean (ints [5])) = "5.00".
Proof. split; reflexivity. Qed.

Close Scope string_scope.

(** ** Connected components *)

Lemma adjacent8_refl (p : point) : adjacent8 p p = true.
Proof.
  unfold adjacent8. rewrite !Z.sub_diag. reflexivity.
Qed.

Lemma adjacent8_sym (p q : point) : adjacent8 p q = adjacent8 q p.
Proof.
  unfold adjacent8.
  replace (fst q - fst p) with (- (fst p - fst q)) by lia.
  replace (snd q - snd p) with (- (snd p - snd q)) by lia.
  rewrite !Z.abs_opp. reflexivity.
Qed.

Lemma separated_sym (c1 c2 : list point) : separated c1 c2 -> separated c2 c1.
Proof.
  intros H p q Hp Hq. rewrite adjacent8_sym. apply H; assumption.
Qed.

Lemma separated_disjoint (c1 c2 : list point) (p : point) :
  separated c1 c2 -> In p c1 -> In p c2 -> False.
Proof.
  intros H H1 H2. specialize (H p p H1 H2).
  rewrite adjacent8_refl in H. discriminate.
Qed.

Lemma path_incl (c c' : list point) (p q : point) :
  incl c c' -> path c p q -> path c' p q.
Proof.
  intros Hincl H. induction H as [p | p q r Hq Hadj _ IH].
  - apply path_here.
  - eapply path_step; [apply Hincl; exact Hq | exact Hadj | exact IH].
Qed.

Lemma path_trans (c : list point) (p q r : point) :
  path c p q -> path c q r -> path c p r.
Proof.
  intros H1 H2. induction H1 as [p | p q' r' Hq Hadj _ IH].
  - exact H2.
  - eapply path_step; [exact Hq | exact Hadj | apply IH; exact H2].
Qed.

(** A path that starts in [c] can be walked backwards. *)
Lemma path_sym (c : list point) (p q : point) :
  In p c -> path c p q -> path c q p.
Proof.
  intros Hp H. induction H as [p | p q r Hq Hadj _ IH].
  - apply path_here.
  - apply path_trans with q; [apply IH; exact Hq|].
    eapply path_step; [exact Hp | rewrite adjacent8_sym; exact Hadj | apply path_here].
Qed.

Lemma touches_true (p : point) (c : list point) :
  touches p c = true <-> exists q, In q c /\ adjacent8 p q = true.
Proof. unfold touches. apply existsb_exists. Qed.

Lemma touches_false (p : point) (c : list point) :
  touches p c = false <-> forall q, In q c -> adjacent8 p q = false.
Proof.
  unfold touches. split.
  - intros H q Hq. destruct (adjacent8 p q) eqn:E; [|reflexivity].
    assert (existsb (adjacent8 p) c = true) as Ht
      by (apply existsb_exists; exists q; split; assumption).
    congruence.
  - intros H. destruct (existsb (adjacent8 p) c) eqn:E; [|reflexivity].
    apply existsb_exists in E. destruct E as [q [Hq Hadj]].
    rewrite (H q Hq) in Hadj. discriminate.
Qed.

Lemma in_concat_filter (f : list point -> bool) (cs : list (list point)) (q : point) :
  In q (concat (filter f cs)) <-> exists c, In c cs /\ f c = true /\ In q c.
Proof.
  rewrite in_concat. split.
  - intros [c [Hc Hq]]. apply filter_In in Hc. destruct Hc as [Hc Hf].
    exists c. repeat split; assumption.
  - intros [c [Hc [Hf Hq]]]. exists c. split; [|exact Hq].
    apply filter_In. split; assumption.
Qed.

Lemma ForallOrdPairs_filter {A : Type} (R : A -> A -> Prop) (f : A -> bool) (l : list A) :
  ForallOrdPairs R l -> ForallOrdPairs R (filter f l).
Proof.
  induction 1 as [|a l Ha Hl IH]; cbn; [constructor|].
  destruct (f a); [|exact IH].
  constructor; [|exact IH].
  rewrite Forall_forall in *. intros x Hx. apply filter_In in Hx. apply Ha, Hx.
Qed.

(** In a pairwise separated list, two members are equal or apart. *)
Lemma separated_members (cs : list (list point)) (c1 c2 : list point) :
  ForallOrdPairs separated cs -> In c1 cs -> In c2 cs ->
  c1 = c2 \/ separated c1 c2.
Proof.
  intros H H1 H2.
  destruct (ForallOrdPairs_In H _ _ H1 H2) as [Heq | [Hs | Hs]].
  - left. exact Heq.
  - right. exact Hs.
  - right. apply separated_sym. exact Hs.
Qed.

Lemma add_pixel_components (pts : list point) (cs : list (list point)) (p : point) :
  components_of (fun q => In q pts) cs ->
  components_of (fun q => In q (pts ++ [p])) (add_pixel cs p).
Proof.
  intros [Hne [Hconn [Hsep Hcover]]]. unfold add_pixel.
  set (near := filter (touches p) cs).
  set (far := filter (fun c => negb (touches p c)) cs).
  assert (forall c, In c far -> In c cs /\ touches p c = false) as Hfar.
  { intros c Hc. apply filter_In in Hc. destruct Hc as [Hc Ht].
    split; [exact Hc|]. apply negb_true_iff. exact Ht. }
  assert (forall q, In q (concat near) ->
                    exists c, In c cs /\ touches p c = true /\ In q c) as Hnear.
  { intros q Hq. apply in_concat_filter. exact Hq. }
  repeat split.
  - constructor; [discriminate|].
    rewrite Forall_forall in *. intros c Hc. apply Hne. apply Hfar. exact Hc.
  - constructor.
    + (* the merged component is connected through [p] *)
      assert (forall q, In q (p :: concat near) -> path (p :: concat near) p q) as Hfrom.
      { intros q [<- | Hq]; [apply path_here|].
        destruct (Hnear q Hq) as [c [Hc [Ht Hqc]]].
        apply touches_true in Ht. destruct Ht as [q0 [Hq0 Hadj]].
        assert (incl c (p :: concat near)) as Hincl.
        { intros x Hx. right. apply in_concat_filter.
          exists c. repeat split; try assumption.
          apply touches_true. exists q0. split; assumption. }
        eapply path_step; [apply Hincl; exact Hq0 | exact Hadj|].
        apply path_incl with c; [exact Hincl|].
        rewrite Forall_forall in Hconn. apply (Hconn c Hc); assumption. }
      intros a b Ha Hb.
      apply path_trans with p; [|apply Hfrom; exact Hb].
      apply path_sym; [left; reflexivity | apply Hfrom; exact Ha].
    + rewrite Forall_forall in *. intros c Hc. apply Hconn. apply Hfar. exact Hc.
  - constructor; [|apply ForallOrdPairs_filter; exact Hsep].
    rewrite Forall_forall. intros c Hc. destruct (Hfar c Hc) as [Hccs Ht].
    intros a b [<- | Ha] Hb.
    + rewrite touches_false in Ht. apply Ht. exact Hb.
    + destruct (Hnear a Ha) as [c0 [Hc0 [Ht0 Hac0]]].
      destruct (separated_members cs c0 c Hsep Hc0 Hccs) as [-> | Hs].
      * congruence.
      * apply Hs; assumption.
  - intros Hq. apply in_app_or in Hq. destruct Hq as [Hq | [<- | []]].
    + apply Hcover in Hq. destruct Hq as [c [Hc Hqc]].
      destruct (touches p c) eqn:Ht.
      * exists (p :: concat near). split; [left; reflexivity|].
        right. apply in_concat_filter. exists c. repeat split; assumption.
      * exists c. split; [|exact Hqc]. right. apply filter_In.
        split; [exact Hc|]. rewrite Ht. reflexivity.
    + exists (p :: concat near). split; [left; reflexivity | left; reflexivity].
  - intros [c [[<- | Hc] Hq]].
    + destruct Hq as [<- | Hq]; [apply in_or_app; right; left; reflexivity|].
      destruct (Hnear p0 Hq) as [c [Hc [_ Hqc]]].
      apply in_or_app. left. apply Hcover. exists c. split; assumption.
    + apply in_or_app. left. apply Hcover. exists c. split; [|exact Hq].
      apply Hfar. exact Hc.
Qed.

Lemma fold_add_pixel_components (more pts : list point) (cs : list (list point)) :
  components_of (fun q => In q pts) cs ->
  components_of (fun q => In q (pts ++ more)) (fold_left add_pixel more cs).
Proof.
  revert pts cs. induction more as [|p more IH]; intros pts cs H; cbn.
  - rewrite app_nil_r. exact H.
  - replace (pts ++ p :: more) with ((pts ++ [p]) ++ more)
      by (rewrite <- app_assoc; reflexivity).
    apply IH. apply add_pixel_components. exact H.
Qed.

(** The clusters built from a list of pixels are its 8-connected
    components. *)
Lemma clusters_are_components (pts : list point) :
  components_of (fun q => In q pts) (fold_left add_pixel pts []).
Proof.
  apply (fold_add_pixel_components pts [] []).
  repeat split; try constructor.
  - intros [].
  - intros [c [[] _]].
Qed.

(** Within one family of components, a component that meets a connected
    set of pixels of [S] contains it. *)
Lemma component_absorbs (S : point -> Prop) (bs : list (list point))
    (b c : list point) (p : point) :
  components_of S bs -> In b bs ->
  (forall q, In q c -> S q) ->
  In p b -> forall q, path c p q -> In q b.
Proof.
  intros [_ [_ [Hsep Hcover]]] Hb HcS Hp q Hpath.
  induction Hpath as [p | p a r Ha Hadj _ IH]; [exact Hp|].
  apply IH.
  destruct (proj1 (Hcover a) (HcS a Ha)) as [b' [Hb' Hab']].
  destruct (separated_members bs b b' Hsep Hb Hb') as [-> | Hs]; [exact Hab'|].
  rewrite (Hs p a Hp Hab') in Hadj. discriminate.
Qed.

Lemma ForallOrdPairs_remove {A : Type} (R : A -> A -> Prop) (l1 l2 : list A) (x : A) :
  ForallOrdPairs R (l1 ++ x :: l2) -> ForallOrdPairs R (l1 ++ l2).
Proof.
  induction l1 as [|a l1 IH]; cbn; intros H; inversion H; subst.
  - assumption.
  - constructor; [|apply IH; assumption].
    rewrite Forall_forall in *. intros y Hy. match goal with H : forall _, _ -> R a _ |- _ => apply H end.
    apply in_or_app. apply in_app_or in Hy. destruct Hy; [left | right; right]; assumption.
Qed.

(** Two families of components of the same pixels have the same size. *)
Lemma components_unique_count (cs : list (list point)) :
  forall (S : point -> Prop) (bs : list (list point)),
    components_of S cs -> components_of S bs -> length cs = length bs.
Proof.
  induction cs as [|c cs IH]; intros S bs Hcs Hbs.
  - destruct bs as [|b bs]; [reflexivity|]. exfalso.
    destruct Hbs as [Hne [_ [_ Hcover]]].
    inversion Hne as [|? ? Hb _]; subst.
    destruct b as [|p b]; [congruence|].
    assert (S p) as Hp by (apply Hcover; exists (p :: b); split; left; reflexivity).
    destruct Hcs as [_ [_ [_ Hcover']]].
    apply Hcover' in Hp. destruct Hp as [c [[] _]].
  - pose proof Hcs as [Hne [Hconn [Hsep Hcover]]].
    pose proof Hbs as [Hne' [Hconn' [Hsep' Hcover']]].
    inversion Hne as [|? ? Hcne Hne_cs]; subst.
    inversion Hconn as [|? ? Hcconn Hconn_cs]; subst.
    inversion Hsep as [|? ? Hcsep Hsep_cs]; subst.
    destruct c as [|p c0]; [congruence|]. set (c := p :: c0) in *.
    assert (In p c) as Hpc by (left; reflexivity).
    assert (S p) as HSp by (apply Hcover; exists c; split; [left; reflexivity | exact Hpc]).
    destruct (proj1 (Hcover' p) HSp) as [b [Hb Hpb]].
    (* [c] and [b] hold the same pixels *)
    assert (forall q, In q c -> In q b) as Hcb.
    { intros q Hq.
      apply (component_absorbs S bs b c p Hbs Hb); [|exact Hpb|apply Hcconn; assumption].
      intros x Hx. apply Hcover. exists c. split; [left; reflexivity | exact Hx]. }
    assert (forall q, In q b -> In q c) as Hbc.
    { intros q Hq.
      apply (component_absorbs S (c :: cs) c b p Hcs (or_introl eq_refl)); [|exact Hpc|].
      - intros x Hx. apply Hcover'. exists b. split; assumption.
      - rewrite Forall_forall in Hconn'. apply (Hconn' b Hb); assumption. }
    destruct (in_split _ _ Hb) as [b1 [b2 ->]].
    rewrite length_app. cbn [length]. rewrite Nat.add_succ_r. f_equal.
    rewrite <- length_app.
    apply (IH (fun q => S q /\ ~ In q c)).
    + repeat split; try assumption.
      * intros [HSq Hnq]. apply Hcover in HSq. destruct HSq as [c' [[<- | Hc'] Hq]].
        -- contradiction.
        -- exists c'. split; assumption.
      * apply Hcover. destruct H as [c' [Hc' Hq]]. exists c'. split; [right|]; assumption.
      * destruct H as [c' [Hc' Hq]]. intros Hqc.
        rewrite Forall_forall in Hcsep.
        exact (separated_disjoint c c' p0 (Hcsep c' Hc') Hqc Hq).
    + assert (forall b', In b' (b1 ++ b2) -> In b' (b1 ++ b :: b2)) as Hsub.
      { intros b' Hb'. apply in_or_app. apply in_app_or in Hb'.
        destruct Hb'; [left | right; right]; assumption. }
      assert (forall b', In b' (b1 ++ b2) -> separated b b') as Hbsep.
      { clear - Hsep'. induction b1 as [|a b1 IHb]; cbn in *; intros b' Hb'.
        - inversion Hsep' as [|? ? Hall _]; subst.
          rewrite Forall_forall in Hall. apply Hall. exact Hb'.
        - inversion Hsep' as [|? ? Hall Hrest]; subst.
          destruct Hb' as [<- | Hb'].
          + apply separated_sym. rewrite Forall_forall in Hall.
            apply Hall. apply in_or_app. right. left. reflexivity.
          + apply IHb; assumption. }
      repeat split.
      * rewrite Forall_forall in *. intros b' Hb'. apply Hne'. apply Hsub. exact Hb'.
      * rewrite Forall_forall in *. intros b' Hb'. apply Hconn'. apply Hsub. exact Hb'.
      * eapply ForallOrdPairs_remove. exact Hsep'.
      * intros [HSq Hnq]. apply Hcover' in HSq. destruct HSq as [b' [Hb' Hq]].
        exists b'. split; [|exact Hq].
        apply in_app_or in Hb'. apply in_or_app.
        destruct Hb' as [Hb' | [<- | Hb']]; [left; exact Hb' | | right; exact Hb'].
        exfalso. apply Hnq. apply Hbc. exact Hq.
      * apply Hcover'. destruct H as [b' [Hb' Hq]]. exists b'.
        split; [apply Hsub; exact Hb' | exact Hq].
      * destruct H as [b' [Hb' Hq]]. intros Hqc.
        exact (separated_disjoint b b' p0 (Hbsep b' Hb') (Hcb _ Hqc) Hq).
Qed.

(** A set of pixels that clusters into a single component is connected. *)
Lemma connected_by_clustering (b : list point) :
  length (fold_left add_pixel b []) = 1%nat -> connected b.
Proof.
  intros Hlen. pose proof (clusters_are_components b) as [_ [Hconn [_ Hcover]]].
  destruct (fold_left add_pixel b []) as [|c [|c' l]]; try discriminate Hlen.
  inversion Hconn as [|? ? Hc _]; subst.
  intros p q Hp Hq.
  assert (forall x, In x b <-> In x c) as Hsame.
  { intros x. rewrite (Hcover x). split.
    - intros [c0 [[<- | []] Hx]]. exact Hx.
    - intros Hx. exists c. split; [left; reflexivity | exact Hx]. }
  apply path_incl with c; [intros x Hx; apply Hsame; exact Hx|].
  apply Hc; apply Hsame; assumption.
Qed.

(** ** Images as tables *)

Lemma range_length (n : Z) : length (range n) = Z.to_nat n.
Proof. unfold range. rewrite length_map, length_seq. reflexivity. Qed.

Lemma range_In (n x : Z) : In x (range n) <-> 0 <= x < n.
Proof.
  unfold range. rewrite in_map_iff. split.
  - intros [i [<- Hi]]. apply in_seq in Hi. lia.
  - intros H. exists (Z.to_nat x). split; [lia|]. apply in_seq. lia.
Qed.

Lemma range_nth (n i : Z) :
  0 <= i < n -> nth_error (range n) (Z.to_nat i) = Some i.
Proof.
  intros H. unfold range.
  rewrite nth_error_map, nth_error_nth' with (d := 0%nat) by (rewrite length_seq; lia).
  rewrite seq_nth by lia. cbn. f_equal. lia.
Qed.

Lemma offsets_In (a d : Z) : In d (offsets a) <-> - a <= d <= a.
Proof.
  unfold offsets. rewrite in_map_iff. split.
  - intros [i [<- Hi]]. apply range_In in Hi. lia.
  - intros H. exists (d + a). split; [lia|]. apply range_In. lia.
Qed.

Lemma rows_tabulate (h w : Z) (f : Z -> Z -> Z) :
  0 <= h -> rows (tabulate h w f) = h.
Proof.
  intros H. unfold rows, tabulate. rewrite length_map, range_length. lia.
Qed.

Lemma cols_tabulate (h w : Z) (f : Z -> Z -> Z) :
  0 < h -> 0 <= w -> cols (tabulate h w f) = w.
Proof.
  intros Hh Hw. unfold cols, tabulate.
  assert (exists l, range h = 0 :: l) as [l ->].
  { unfold range. destruct (Z.to_nat h) as [|n] eqn:E; [lia|].
    cbn. eexists. reflexivity. }
  cbn [map]. rewrite length_map, range_length. lia.
Qed.

Lemma pixel_tabulate (h w : Z) (f : Z -> Z -> Z) (r c : Z) :
  0 <= r < h -> 0 <= c < w -> pixel (tabulate h w f) r c = Some (f r c).
Proof.
  intros Hr Hc. unfold pixel, tabulate.
  replace (0 <=? r) with true by (symmetry; apply Z.leb_le; lia).
  replace (0 <=? c) with true by (symmetry; apply Z.leb_le; lia).
  cbn [andb].
  rewrite nth_error_map, range_nth by exact Hr. cbn [option_map].
  rewrite nth_error_map, range_nth by exact Hc. reflexivity.
Qed.

Lemma pixel_tabulate_outside (h w : Z) (f : Z -> Z -> Z) (r c : Z) :
  ~ (0 <= r < h /\ 0 <= c < w) -> pixel (tabulate h w f) r c = None.
Proof.
  intros H. unfold pixel, tabulate.
  destruct (Z.leb_spec 0 r) as [Hr|]; [|reflexivity].
  destruct (Z.leb_spec 0 c) as [Hc|]; [|reflexivity]. cbn [andb].
  rewrite nth_error_map.
  destruct (Z_lt_dec r h) as [Hrh | Hrh].
  - rewrite range_nth by lia. cbn [option_map]. rewrite nth_error_map.
    assert (nth_error (range w) (Z.to_nat c) = None) as ->; [|reflexivity].
    apply nth_error_None. rewrite range_length. lia.
  - assert (nth_error (range h) (Z.to_nat r) = None) as ->; [|reflexivity].
    apply nth_error_None. rewrite range_length. lia.
Qed.

Lemma tabulate_ext (h w : Z) (f g : Z -> Z -> Z) :
  (forall r c, 0 <= r < h -> 0 <= c < w -> f r c = g r c) ->
  tabulate h w f = tabulate h w g.
Proof.
  intros H. unfold tabulate. apply map_ext_in. intros r Hr.
  apply map_ext_in. intros c Hc. apply H; apply range_In; assumption.
Qed.

Lemma map_tabulate (h w : Z) (f : Z -> Z -> Z) (g : Z -> Z) :
  map (map g) (tabulate h w f) = tabulate h w (fun r c => g (f r c)).
Proof.
  unfold tabulate. rewrite map_map. apply map_ext. intros r.
  rewrite map_map. reflexivity.
Qed.

Lemma concat_tabulate_In (h w : Z) (f : Z -> Z -> Z) (v : Z) :
  In v (concat (tabulate h w f)) <->
  exists r c, 0 <= r < h /\ 0 <= c < w /\ v = f r c.
Proof.
  rewrite in_concat. unfold tabulate. split.
  - intros [row [Hrow Hv]]. apply in_map_iff in Hrow. destruct Hrow as [r [<- Hr]].
    apply in_map_iff in Hv. destruct Hv as [c [<- Hc]].
    exists r, c. rewrite range_In in Hr, Hc. repeat split; lia.
  - intros [r [c [Hr [Hc ->]]]].
    exists (map (fun c0 => f r c0) (range w)). split.
    + apply in_map_iff. exists r. split; [reflexivity | apply range_In; exact Hr].
    + apply in_map_iff. exists c. split; [reflexivity | apply range_In; exact Hc].
Qed.

(** The values under the window, read through the table's function. *)
Lemma neighbourhood_In (h w : Z) (f : Z -> Z -> Z) (a r c v : Z) :
  In v (neighbourhood (tabulate h w f) a r c) <->
  exists q, inside h w q /\ near a (r, c) q /\ v = f (fst q) (snd q).
Proof.
  unfold neighbourhood. rewrite in_flat_map. split.
  - intros [dr [Hdr Hv]]. apply in_flat_map in Hv. destruct Hv as [dc [Hdc Hv]].
    apply offsets_In in Hdr. apply offsets_In in Hdc.
    destruct (pixel _ (r + dr) (c + dc)) as [x|] eqn:Hpix; [|contradiction].
    destruct Hv as [<- | []].
    destruct (Z_lt_dec (r + dr) 0); [rewrite pixel_tabulate_outside in Hpix by lia; discriminate|].
    destruct (Z_lt_dec (r + dr) h); [|rewrite pixel_tabulate_outside in Hpix by lia; discriminate].
    destruct (Z_lt_dec (c + dc) 0); [rewrite pixel_tabulate_outside in Hpix by lia; discriminate|].
    destruct (Z_lt_dec (c + dc) w); [|rewrite pixel_tabulate_outside in Hpix by lia; discriminate].
    rewrite pixel_tabulate in Hpix by lia. inversion Hpix; subst.
    exists (r + dr, c + dc). unfold inside, near. cbn [fst snd].
    repeat split; lia.
  - intros [[qr qc] [[Hr Hc] [[Hnr Hnc] ->]]]. cbn [fst snd] in *.
    exists (qr - r). split; [apply offsets_In; lia|].
    apply in_flat_map. exists (qc - c). split; [apply offsets_In; lia|].
    replace (r + (qr - r)) with qr by lia. replace (c + (qc - c)) with qc by lia.
    rewrite pixel_tabulate by lia. left. reflexivity.
Qed.

Lemma fold_min_binary (l : list Z) :
  (forall v, In v l -> v = 0 \/ v = 255) ->
  (fold_right Z.min 255 l = 255 /\ forall v, In v l -> v = 255) \/
  (fold_right Z.min 255 l = 0 /\ In 0 l).
Proof.
  induction l as [|x l IH]; intros H; cbn [fold_right].
  - left. split; [reflexivity | intros v []].
  - destruct IH as [[Hm Hall] | [Hm Hin]].
    + intros v Hv. apply H. right. exact Hv.
    + destruct (H x (or_introl eq_refl)) as [-> | ->].
      * right. split; [rewrite Hm; reflexivity | left; reflexivity].
      * left. split; [rewrite Hm; reflexivity|].
        intros v [<- | Hv]; [reflexivity | apply Hall; exact Hv].
    + right. split; [rewrite Hm|right; exact Hin].
      destruct (H x (or_introl eq_refl)) as [-> | ->]; reflexivity.
Qed.

Lemma fold_max_binary (l : list Z) :
  (forall v, In v l -> v = 0 \/ v = 255) ->
  (fold_right Z.max 0 l = 0 /\ forall v, In v l -> v = 0) \/
  (fold_right Z.max 0 l = 255 /\ In 255 l).
Proof.
  induction l as [|x l IH]; intros H; cbn [fold_right].
  - left. split; [reflexivity | intros v []].
  - destruct IH as [[Hm Hall] | [Hm Hin]].
    + intros v Hv. apply H. right. exact Hv.
    + destruct (H x (or_introl eq_refl)) as [-> | ->].
      * left. split; [rewrite Hm; reflexivity|].
        intros v [<- | Hv]; [reflexivity | apply Hall; exact Hv].
      * right. split; [rewrite Hm; reflexivity | left; reflexivity].
    + right. split; [rewrite Hm|right; exact Hin].
      destruct (H x (or_introl eq_refl)) as [-> | ->]; reflexivity.
Qed.

Lemma erode_tabulate (h w : Z) (f : Z -> Z -> Z) :
  0 < h -> 0 < w ->
  erode 3 (tabulate h w f)
  = tabulate h w (fun r c => fold_right Z.min 255 (neighbourhood (tabulate h w f) 1 r c)).
Proof.
  intros Hh Hw. unfold erode.
  rewrite rows_tabulate, cols_tabulate by lia. reflexivity.
Qed.

Lemma dilate_tabulate (h w : Z) (f : Z -> Z -> Z) :
  0 < h -> 0 < w ->
  dilate 3 (tabulate h w f)
  = tabulate h w (fun r c => fold_right Z.max 0 (neighbourhood (tabulate h w f) 1 r c)).
Proof.
  intros Hh Hw. unfold dilate.
  rewrite rows_tabulate, cols_tabulate by lia. reflexivity.
Qed.

Lemma neighbourhood_binary (h w : Z) (X : point -> Prop) (f : Z -> Z -> Z) (r c v : Z) :
  binary_table h w X f ->
  In v (neighbourhood (tabulate h w f) 1 r c) -> v = 0 \/ v = 255.
Proof.
  intros Hb Hv. apply neighbourhood_In in Hv.
  destruct Hv as [[qr qc] [Hin [_ ->]]]. cbn [fst snd].
  destruct (Hb qr qc Hin) as [[-> _] | [-> _]]; [right | left]; reflexivity.
Qed.

(** Erosion keeps the pixels whose whole window, as far as it lies inside
    the image, is set. *)
Lemma erode_binary (h w : Z) (X : point -> Prop) (f : Z -> Z -> Z) :
  binary_table h w X f ->
  binary_table h w (fun p => forall q, inside h w q -> near 1 p q -> X q)
    (fun r c => fold_right Z.min 255 (neighbourhood (tabulate h w f) 1 r c)).
Proof.
  intros Hb r c Hin.
  destruct (fold_min_binary (neighbourhood (tabulate h w f) 1 r c)) as [[Hm Hall] | [Hm H0]].
  - intros v. apply (neighbourhood_binary h w X f r c v Hb).
  - left. split; [exact Hm|]. intros [qr qc] Hq Hnear.
    destruct (Hb qr qc Hq) as [[_ HX] | [Hf _]]; [exact HX|].
    assert (f qr qc = 255) as H255.
    { apply Hall. apply neighbourhood_In. exists (qr, qc). repeat split; try apply Hq; apply Hnear. }
    lia.
  - right. split; [exact Hm|]. intros Hall.
    apply neighbourhood_In in H0. destruct H0 as [[qr qc] [Hq [Hnear Hf]]].
    cbn [fst snd] in Hf.
    destruct (Hb qr qc Hq) as [[Hf' _] | [_ HX]]; [lia|].
    apply HX. apply Hall; assumption.
Qed.

(** Dilation sets the pixels whose window meets a set pixel. *)
Lemma dilate_binary (h w : Z) (X : point -> Prop) (f : Z -> Z -> Z) :
  binary_table h w X f ->
  binary_table h w (fun p => exists q, inside h w q /\ near 1 p q /\ X q)
    (fun r c => fold_right Z.max 0 (neighbourhood (tabulate h w f) 1 r c)).
Proof.
  intros Hb r c Hin.
  destruct (fold_max_binary (neighbourhood (tabulate h w f) 1 r c)) as [[Hm Hall] | [Hm H1]].
  - intros v. apply (neighbourhood_binary h w X f r c v Hb).
  - right. split; [exact Hm|]. intros [[qr qc] [Hq [Hnear HX]]].
    destruct (Hb qr qc Hq) as [[Hf _] | [_ HnX]]; [|contradiction].
    assert (f qr qc = 0) as H0.
    { apply Hall. apply neighbourhood_In. exists (qr, qc). repeat split; try apply Hq; apply Hnear. }
    lia.
  - left. split; [exact Hm|].
    apply neighbourhood_In in H1. destruct H1 as [[qr qc] [Hq [Hnear Hf]]].
    cbn [fst snd] in Hf.
    destruct (Hb qr qc Hq) as [[_ HX] | [Hf' _]]; [|lia].
    exists (qr, qc). repeat split; try apply Hq; try apply Hnear. exact HX.
Qed.

Lemma binary_table_ext (h w : Z) (X Y : point -> Prop) (f g : Z -> Z -> Z) :
  binary_table h w X f -> binary_table h w Y g ->
  (forall p, inside h w p -> (X p <-> Y p)) ->
  tabulate h w f = tabulate h w g.
Proof.
  intros Hf Hg Hiff. apply tabulate_ext. intros r c Hr Hc.
  assert (inside h w (r, c)) as Hin by (split; assumption).
  destruct (Hf r c Hin) as [[-> HX] | [-> HX]], (Hg r c Hin) as [[-> HY] | [-> HY]];
    try reflexivity; exfalso; apply (Hiff (r, c) Hin) in HX || apply (Hiff (r, c) Hin) in HY;
    contradiction.
Qed.

(** ** Otsu's threshold on a two-level image *)

Lemma fold_otsu_keeps (px : list Z) (ts : list Z) (best : Z * Z * Z) :
  (forall t, In t ts -> otsu_step px best t = best) ->
  fold_left (otsu_step px) ts best = best.
Proof.
  induction ts as [|t ts IH]; intros H; cbn [fold_left]; [reflexivity|].
  rewrite (H t (or_introl eq_refl)). apply IH.
  intros t' Ht'. apply H. right. exact Ht'.
Qed.


Section TwoLevels.

Variables (fg bg : Z) (px : list Z).
Hypothesis levels : 0 <= fg < bg.
Hypothesis two_levels : forall v, In v px -> v = fg \/ v = bg.

Let n := Z.of_nat (length px).








End TwoLevels.


(** ** The cell count on separated blobs *)

Lemma near_sym (a : Z) (p q : point) : near a p q -> near a q p.
Proof. unfold near. lia. Qed.

(** Two erosions then two dilations by the 3 x 3 square give back a set
    that is a union of 5 x 5 windows (clipped to the image). *)
Lemma opening_restores (h w : Z) (X : point -> Prop) (f : Z -> Z -> Z) :
  0 < h -> 0 < w ->
  binary_table h w X f ->
  (forall p, inside h w p -> X p ->
     exists c, inside h w c /\ near 2 p c /\
               forall q, inside h w q -> near 2 c q -> X q) ->
  morphologyEx (tabulate h w f) MORPH_OPEN 3 2 = tabulate h w f.
Proof.
  intros Hh Hw Hb Hcover. unfold morphologyEx, Nat.iter. cbn [nat_rect].
  rewrite (erode_tabulate h w f), erode_tabulate by assumption.
  rewrite dilate_tabulate, dilate_tabulate by assumption.
  pose proof (erode_binary h w _ _ (erode_binary h w X f Hb)) as He.
  pose proof (dilate_binary h w _ _ (dilate_binary h w _ _ He)) as Hd.
  apply (binary_table_ext h w _ X _ f Hd Hb).
  intros [pr pc] Hp. split.
  - intros [q1 [Hq1 [Hn1 [q2 [Hq2 [Hn2 Hall]]]]]].
    apply (Hall q1 Hq1 (near_sym 1 _ _ Hn2) (pr, pc) Hp (near_sym 1 _ _ Hn1)).
  - intros HX. destruct (Hcover (pr, pc) Hp HX) as [[cr cc] [Hc [Hnear Hwin]]].
    exists (pr + Z.max (-1) (Z.min 1 (cr - pr)), pc + Z.max (-1) (Z.min 1 (cc - pc))).
    unfold inside, near in *. cbn [fst snd] in *.
    split; [lia|]. split; [lia|].
    exists (cr, cc). cbn [fst snd].
    split; [lia|]. split; [lia|].
    intros [ar ac] Ha Hna [br bc] Hbi Hnb. cbn [fst snd] in *.
    apply Hwin; cbn [fst snd]; lia.
Qed.

Lemma foreground_tabulate (h w : Z) (f : Z -> Z -> Z) (p : point) :
  0 < h -> 0 < w ->
  In p (foreground (tabulate h w f)) <->
  inside h w p /\ f (fst p) (snd p) <> 0.
Proof.
  intros Hh Hw. unfold foreground.
  rewrite rows_tabulate, cols_tabulate by lia.
  rewrite in_flat_map. split.
  - intros [r [Hr Hp]]. apply in_flat_map in Hp. destruct Hp as [c [Hc Hp]].
    apply range_In in Hr. apply range_In in Hc.
    rewrite pixel_tabulate in Hp by assumption.
    destruct (Z.eqb_spec (f r c) 0) as [|Hne]; [contradiction|].
    destruct Hp as [<- | []]. split; [split; assumption | exact Hne].
  - intros [[Hr Hc] Hne]. destruct p as [r c]. cbn [fst snd] in *.
    exists r. split; [apply range_In; exact Hr|].
    apply in_flat_map. exists c. split; [apply range_In; exact Hc|].
    rewrite pixel_tabulate by assumption.
    destruct (Z.eqb_spec (f r c) 0); [contradiction | left; reflexivity].
Qed.



Lemma bgr2gray_grey (v : Z) : bgr2gray (v, v, v) = v.
Proof.
  unfold bgr2gray. rewrite Z.shiftr_div_pow2 by lia.
  replace (v * 1868 + v * 9617 + v * 4899 + 8192) with (v * 2 ^ 14 + 8192) by lia.
  rewrite Z.div_add_l by lia.
  replace (8192 / 2 ^ 14) with 0 by reflexivity. lia.
Qed.

Lemma to_gray_as_bgr (img : gray_image) : to_gray (as_bgr img) = img.
Proof.
  unfold as_bgr, to_gray, cvtColor_BGR2GRAY.
  rewrite map_map. rewrite <- (map_id img) at 2. apply map_ext. intros row.
  rewrite map_map. rewrite <- (map_id row) at 2. apply map_ext. intros v.
  apply bgr2gray_grey.
Qed.

Lemma cell_count_as_bgr (img : gray_image) :
  cell_count_of (as_bgr img) = cell_count_of (Gray img).
Proof.
  unfold cell_count_of. rewrite to_gray_as_bgr. reflexivity.
Qed.


(** ** Rectangular blobs *)

Lemma rectangle_In (top left height width : Z) (p : point) :
  In p (rectangle top left height width) <->
  top <= fst p < top + height /\ left <= snd p < left + width.
Proof.
  destruct p as [r c]. unfold rectangle, point. cbn [fst snd]. split.
  - intros H. apply in_prod_iff in H. destruct H as [Hr Hc].
    apply in_map_iff in Hr. destruct Hr as [i [<- Hi]].
    apply in_map_iff in Hc. destruct Hc as [j [<- Hj]].
    apply range_In in Hi. apply range_In in Hj. lia.
  - intros [Hr Hc]. apply in_prod_iff. split; apply in_map_iff.
    + exists (r - top). split; [lia | apply range_In; lia].
    + exists (c - left). split; [lia | apply range_In; lia].
Qed.

Lemma adjacent8_true (p q : point) :
  adjacent8 p q = true <-> near 1 p q.
Proof.
  unfold adjacent8, near. rewrite andb_true_iff, !Z.leb_le. reflexivity.
Qed.


Lemma rectangle_connected (top left height width : Z) :
  connected (rectangle top left height width).
Proof.
  set (R := rectangle top left height width).
  assert (forall n r c, Z.to_nat ((r - top) + (c - left)) = n ->
                        In (r, c) R -> path R (r, c) (top, left)) as Hcorner.
  { induction n as [|n IH]; intros r c Hn Hin;
      pose proof (proj1 (rectangle_In _ _ _ _ _) Hin) as [Hr Hc]; cbn [fst snd] in Hr, Hc.
    - assert (r = top) as -> by lia. assert (c = left) as -> by lia. apply path_here.
    - destruct (Z.eq_dec r top) as [-> | Hne].
      + apply path_step with (top, c - 1).
        * apply rectangle_In. cbn [fst snd]. lia.
        * apply adjacent8_true. unfold near. cbn [fst snd]. lia.
        * apply IH; [lia|]. apply rectangle_In. cbn [fst snd]. lia.
      + apply path_step with (r - 1, c).
        * apply rectangle_In. cbn [fst snd]. lia.
        * apply adjacent8_true. unfold near. cbn [fst snd]. lia.
        * apply IH; [lia|]. apply rectangle_In. cbn [fst snd]. lia. }
  intros [pr pc] [qr qc] Hp Hq.
  apply path_trans with (top, left).
  - apply (Hcorner _ pr pc eq_refl Hp).
  - apply path_sym; [exact Hq|]. apply (Hcorner _ qr qc eq_refl Hq).
Qed.


Lemma rectangle_nonempty (top left height width : Z) :
  0 < height -> 0 < width -> rectangle top left height width <> [].
Proof.
  intros Hh Hw Hnil.
  assert (In (top, left) (rectangle top left height width)) as Hin
    by (apply rectangle_In; cbn [fst snd]; lia).
  rewrite Hnil in Hin. contradiction.
Qed.




Open Scope string_scope.
Open Scope Z_scope.




(** Bright blobs on a dark field are not counted either: the inverted
    threshold makes the field the foreground, one component. *)
Example bright_blobs_count_the_field :
  cell_count_of (Gray (synthetic 9 20 0 255 [rectangle 2 2 5 5; rectangle 2 10 5 6])) = 1.
Proof. vm_compute. reflexivity. Qed.

(** A connected blob may fall apart: two 5 x 5 squares joined by a bridge
    one pixel wide count as two. *)
Example bridged_blob_counts_twice :
  connected (rectangle 1 1 5 5 ++ rectangle 3 6 1 3 ++ rectangle 1 9 5 5)%list /\
  cell_count_of
    (Gray (synthetic 7 15 255 0
             [(rectangle 1 1 5 5 ++ rectangle 3 6 1 3 ++ rectangle 1 9 5 5)%list])) = 2.
Proof.
  split; [|vm_compute; reflexivity].
  apply connected_by_clustering. vm_compute. reflexivity.
Qed.


(** ** Further properties of the store and the windows *)


Lemma store_ok_empty : store_ok empty_database.
Proof. split; constructor. Qed.

(** A register that is tried only when the login fails changes nothing the
    second time. *)
Lemma seed_account_idempotent (db : database) (username password user_type : string) :
  let seed d :=
    match login_user d username password with
    | Some _ => d
    | None => snd (register_user d username password user_type)
    end in
  seed (seed db) = seed db.
Proof.
  cbv beta zeta. destruct (login_user db username password) as [u|] eqn:Hlogin.
  - rewrite Hlogin. reflexivity.
  - destruct (username_taken db username) eqn:Htaken.
    + unfold register_user. rewrite Htaken. cbn [snd]. rewrite Hlogin.
      rewrite Htaken. reflexivity.
    + pose proof (proj1 (username_taken_false _ _) Htaken) as Hfree.
      clear Htaken. rename Hfree into Htaken.
      destruct (register_then_login_store db username password user_type Htaken)
        as [db' [Hreg _]].
      rewrite Hreg. cbn [snd].
      rewrite (login_after_register db db' username password user_type Htaken Hreg).
      reflexivity.
Qed.

(** The seed accounts of start-up: running the start-up code again leaves the
    store as the first run left it. *)
Lemma bootstrap_idempotent (db : database) : bootstrap (bootstrap db) = bootstrap db.
Proof.
  unfold bootstrap.
  set (seed_img := fun d =>
         match login_user d "admin_img" "admin123" with
         | Some _ => d
         | None => snd (register_user d "admin_img" "admin123" "imagen")
         end).
  set (seed_sig := fun d =>
         match login_user d "admin_sig" "admin123" with
         | Some _ => d
         | None => snd (register_user d "admin_sig" "admin123" "senal")
         end).
  change (seed_sig (seed_img (seed_sig (seed_img db))) = seed_sig (seed_img db)).
  (* once the image seed can log in, later registrations do not disturb it *)
  assert (forall d, login_user d "admin_img" "admin123" <> None \/
                    username_taken d "admin_img" = true ->
                    seed_img (seed_sig d) = seed_sig d) as Hstable.
  { intros d Hd. unfold seed_img.
    destruct (login_user (seed_sig d) "admin_img" "admin123") eqn:Hl; [reflexivity|].
    assert (username_taken (seed_sig d) "admin_img" = true) as Htaken.
    { unfold seed_sig.
      destruct (login_user d "admin_sig" "admin123");
        [destruct Hd as [Hd | Hd]; [|exact Hd]|].
      - destruct (username_taken d "admin_img") eqn:E; [reflexivity|].
        exfalso. apply Hd. unfold login_user. rewrite find_no_username; [reflexivity | exact E].
      - assert (username_taken d "admin_img" = true) as Ht.
        { destruct Hd as [Hd | Hd]; [|exact Hd].
          destruct (username_taken d "admin_img") eqn:E; [reflexivity|].
          exfalso. apply Hd. unfold login_user. rewrite find_no_username; [reflexivity | exact E]. }
        unfold register_user. destruct (username_taken d "admin_sig"); [exact Ht|].
        cbn [snd]. unfold username_taken in *. cbn [users].
        rewrite existsb_app, Ht. reflexivity. }
    unfold register_user. rewrite Htaken. reflexivity. }
  assert (login_user (seed_img db) "admin_img" "admin123" <> None \/
          username_taken (seed_img db) "admin_img" = true) as Himg.
  { unfold seed_img. destruct (login_user db "admin_img" "admin123") eqn:Hl.
    - left. rewrite Hl. discriminate.
    - destruct (username_taken db "admin_img") eqn:Ht.
      + right. unfold register_user. rewrite Ht. exact Ht.
      + left. pose proof (proj1 (username_taken_false _ _) Ht) as Hfree.
        clear Ht. rename Hfree into Ht.
        destruct (register_then_login_store db "admin_img" "admin123" "imagen" Ht)
          as [db' [Hreg _]].
        rewrite Hreg. cbn [snd].
        rewrite (login_after_register db db' "admin_img" "admin123" "imagen" Ht Hreg).
        discriminate. }
  rewrite (Hstable _ Himg).
  apply (seed_account_idempotent (seed_img db) "admin_sig" "admin123" "senal").
Qed.

Lemma extends_refl {A : Type} (l : list A) : extends l l.
Proof. exists []. rewrite app_nil_r. reflexivity. Qed.

Lemma append_only_refl (db : database) : append_only db db.
Proof. repeat split; apply extends_refl. Qed.

Lemma appends_one_append_only (user_id : Z) (db db' : database) :
  appends_one user_id db db' -> append_only db db'.
Proof.
  intros [row Hu Hd Hi Hs _ | row Hu Hd Hi Hs _ | row Hu Hd Hi Hs _];
    unfold append_only; rewrite Hu, Hd, Hi, Hs;
    repeat split; try apply extends_refl; exists [row]; reflexivity.
Qed.

(** No click deletes or changes a row: the users are untouched and each log
    table only grows at its end. *)
Lemma clicks_append_only :
  (forall op w db, append_only db (snd (run_image op w db))) /\
  (forall op w db, append_only db (snd (run_signal op w db))).
Proof.
  split.
  - intros op w db. destruct (logs op) eqn:Hlogs.
    + destruct op; try discriminate Hlogs.
      * destruct (load_dicom env w db) as [[o w'] db'] eqn:Hrun. cbn [run_image snd].
        rewrite Hrun. cbn [snd]. unfold load_dicom in Hrun. run_cases Hrun;
          try apply append_only_refl;
          eapply appends_one_append_only; apply save_dicom_analysis_appends.
      * pose proof (image_slots_audited (ApplyMorphological show) w db eq_refl) as H.
        unfold audited_image in H.
        destruct (completed _); [|rewrite H by discriminate; apply append_only_refl].
        eapply appends_one_append_only. apply H. discriminate.
      * pose proof (image_slots_audited (CountCells draw) w db eq_refl) as H.
        unfold audited_image in H.
        destruct (completed _); [|rewrite H by discriminate; apply append_only_refl].
        eapply appends_one_append_only. apply H. discriminate.
    + rewrite image_slots_without_log by exact Hlogs. apply append_only_refl.
  - intros op w db. pose proof (signal_slots_audited op w db) as H.
    unfold audited_signal in H.
    destruct (completed _); [|rewrite H; apply append_only_refl].
    eapply appends_one_append_only. exact H.
Qed.

Lemma fit_slider_minimum (dim : Z) (s : QSlider) :
  minimum s = 0 -> 1 <= dim -> minimum (fit_slider dim s) = 0.
Proof. intros Hmin Hdim. rewrite fit_slider_spec by assumption. reflexivity. Qed.

Lemma fit_sliders_minimum (shape : list Z) (w : image_window) :
  positive_extents shape ->
  minimum (iw_slider_axial w) = 0 ->
  minimum (iw_slider_coronal w) = 0 ->
  minimum (iw_slider_sagital w) = 0 ->
  minimum (iw_slider_axial (fit_sliders shape w)) = 0 /\
  minimum (iw_slider_coronal (fit_sliders shape w)) = 0 /\
  minimum (iw_slider_sagital (fit_sliders shape w)) = 0.
Proof.
  intros Hpos Ha Hb Hc. unfold positive_extents in Hpos.
  destruct shape as [|A [|B [|C rest]]]; cbn -[fit_slider];
    repeat match goal with
           | H : Forall _ (_ :: _) |- _ => inversion H; subst; clear H
           end;
    repeat split; try assumption; apply fit_slider_minimum; assumption.
Qed.

(** In every window that arises the three sliders still start at 0, so the
    premise of [sliders_after_load] holds there. *)
Lemma arises_slider_minimum (user_id : Z) (w : image_window) :
  arises user_id w ->
  minimum (iw_slider_axial w) = 0 /\
  minimum (iw_slider_coronal w) = 0 /\
  minimum (iw_slider_sagital w) = 0.
Proof.
  induction 1 as [|op w w' db db' o _ [Ha [Hb Hc]] Hfull Hrun].
  - repeat split.
  - destruct op; cbn [run_image offers_full_volumes] in *.
    + unfold load_dicom in Hrun.
      destruct (is_empty _); [inversion Hrun; subst; repeat split; assumption|].
      destruct (ld_read env) as [series|]; [|inversion Hrun; subst; repeat split; assumption].
      specialize (Hfull series eq_refl).
      destruct (update_dicom_view _ _); inversion Hrun; subst;
        apply (fit_sliders_minimum _ (with_volume (ds_volume series) w) Hfull Ha Hb Hc).
    + unfold convert_to_nifti in Hrun. run_cases Hrun; repeat split; assumption.
    + unfold view_nifti in Hrun.
      destruct (is_empty _); [inversion Hrun; subst; repeat split; assumption|].
      destruct (vn_load env) as [v|]; [|inversion Hrun; subst; repeat split; assumption].
      specialize (Hfull v eq_refl).
      destruct (update_dicom_view _ _); inversion Hrun; subst;
        apply (fit_sliders_minimum _ (with_volume v w) Hfull Ha Hb Hc).
    + unfold load_image in Hrun. run_cases Hrun; repeat split; assumption.
    + unfold apply_morphological in Hrun. run_cases Hrun; repeat split; assumption.
    + unfold count_cells in Hrun. run_cases Hrun; repeat split; assumption.
    + unfold save_analysis in Hrun. run_cases Hrun; repeat split; assumption.
Qed.


Lemma arises_slider_minimum_witness :
  minimum (iw_slider_axial
             (snd (fst (run_image (LoadDicom dicom_env_64) (new_image_window 1)
                          empty_database)))) = 0.
Proof.
  apply (arises_slider_minimum 1).
  apply (arises_click 1 (LoadDicom dicom_env_64) (new_image_window 1) _
           empty_database
           (snd (run_image (LoadDicom dicom_env_64) (new_image_window 1) empty_database))
           (fst (fst (run_image (LoadDicom dicom_env_64) (new_image_window 1)
                        empty_database)))).
  - apply arises_new.
  - intros series Hread. inversion Hread; subst. cbn.
    repeat constructor; lia.
  - reflexivity.
Defined.


(** ** Logging in *)

Lemma NoDup_map_injective {A B : Type} (f : A -> B) (l : list A) (a b : A) :
  NoDup (map f l) -> In a l -> In b l -> f a = f b -> a = b.
Proof.
  induction l as [|x l IH]; cbn [map]; intros Hnd Ha Hb Heq; [contradiction|].
  inversion Hnd as [|? ? Hx Hl]; subst.
  destruct Ha as [-> | Ha], Hb as [-> | Hb].
  - reflexivity.
  - exfalso. apply Hx. rewrite Heq. apply in_map. exact Hb.
  - exfalso. apply Hx. rewrite <- Heq. apply in_map. exact Ha.
  - apply IH; assumption.
Qed.

(** With one row per username, a login succeeds exactly when the users table
    holds a row with that username and the digest of that password, and it
    returns the id and the role of that row. *)
Lemma login_user_iff (db : database) (username password role : string) (id : Z) :
  store_ok db ->
  login_user db username password = Some (id, role) <->
  In {| u_id := id; u_username := username;
        u_password := sha256_hexdigest password; u_user_type := role |} (users db).
Proof.
  intros [Hnames _]. unfold login_user.
  set (test := fun r => ((u_username r =? username) && (u_password r =? sha256_hexdigest password))%string).
  split.
  - destruct (find test (users db)) as [row|] eqn:Hfind; [|discriminate].
    intros Heq. inversion Heq; subst; clear Heq.
    apply find_some in Hfind. destruct Hfind as [Hin Htest].
    unfold test in Htest. apply andb_true_iff in Htest. destruct Htest as [Hu Hp].
    apply String.eqb_eq in Hu. apply String.eqb_eq in Hp.
    destruct row as [i u p r]. cbn in *. subst. exact Hin.
  - intros Hin.
    destruct (find test (users db)) as [row|] eqn:Hfind.
    + apply find_some in Hfind. destruct Hfind as [Hin' Htest].
      unfold test in Htest. apply andb_true_iff in Htest. destruct Htest as [Hu _].
      apply String.eqb_eq in Hu.
      assert (row = {| u_id := id; u_username := username;
                       u_password := sha256_hexdigest password;
                       u_user_type := role |}) as ->.
      { apply (NoDup_map_injective u_username (users db)); assumption. }
      reflexivity.
    + exfalso. apply (find_none _ _ Hfind) in Hin. unfold test in Hin. cbn in Hin.
      rewrite !String.eqb_refl in Hin. discriminate.
Qed.

Lemma login_user_iff_witness :
  login_user (bootstrap empty_database) "admin_sig" "admin123" = Some (2, "senal").
Proof.
  apply login_user_iff.
  - split; vm_compute;
      (constructor; [intros [H | []]; discriminate H|]);
      (constructor; [intros [] | constructor]).
  - vm_compute. right. left. reflexivity.
Defined.

(** Registering through the form and then logging in with the same fields
    opens the window of the role the radio button chose, for the user just
    created. *)
Lemma handle_register_then_login (w : login_window) (db : database) :
  lw_username w <> "" -> lw_password w <> "" -> lw_main_window w = None ->
  (forall row, In row (users db) -> u_username row <> lw_username w) ->
  exists db',
    handle_register w db = (Information "Éxito" "Registro exitoso", db') /\
    fst (handle_login w db') = None /\
    lw_main_window (snd (handle_login w db'))
    = Some (if lw_btn_imagen w
            then ImageExpertWindow (new_image_window (next_rowid (map u_id (users db))))
            else SignalExpertWindow (new_signal_window (next_rowid (map u_id (users db))))).
Proof.
  intros Hu Hp Hnone Hfree.
  set (role := if lw_btn_imagen w then "imagen" else "senal").
  destruct (register_then_login_store db (lw_username w) (lw_password w) role Hfree)
    as [db' [Hreg _]].
  pose proof (login_after_register db db' _ _ role Hfree Hreg) as Hlogin.
  exists db'. unfold handle_register, handle_login.
  destruct (lw_username w) as [|c u] eqn:Eu; [congruence|].
  destruct (lw_password w) as [|c' p] eqn:Ep; [congruence|].
  cbn [is_empty orb]. fold role. rewrite Hreg, Hlogin. cbn [fst snd lw_main_window].
  rewrite Hnone. unfold MainWindow, role.
  repeat split. destruct (lw_btn_imagen w); reflexivity.
Qed.

Lemma handle_register_then_login_witness :
  exists db',
    handle_register {| lw_username := "ana"; lw_password := "s3cret";
                       lw_btn_imagen := false; lw_main_window := None |}
      (bootstrap empty_database)
    = (Information "Éxito" "Registro exitoso", db') /\
    lw_main_window
      (snd (handle_login {| lw_username := "ana"; lw_password := "s3cret";
                            lw_btn_imagen := false; lw_main_window := None |} db'))
    = Some (SignalExpertWindow (new_signal_window 3)).
Proof.
  destruct (handle_register_then_login
              {| lw_username := "ana"; lw_password := "s3cret";
                 lw_btn_imagen := false; lw_main_window := None |}
              (bootstrap empty_database)) as [db' [Hreg [_ Hwin]]].
  - discriminate.
  - discriminate.
  - reflexivity.
  - intros row Hin Heq. vm_compute in Hin.
    destruct Hin as [<- | [<- | []]]; discriminate Heq.
  - exists db'. split; [exact Hreg | exact Hwin].
Defined.

(** ** The seed accounts *)





(** ** What a run of clicks writes *)

Lemma fit_sliders_user_id (shape : list Z) (w : image_window) :
  iw_user_id (fit_sliders shape w) = iw_user_id w.
Proof. destruct shape as [|a [|b [|c rest]]]; reflexivity. Qed.

Lemma image_click_log (op : image_operation) (w : image_window) (db : database) :
  iw_user_id (snd (fst (run_image op w db))) = iw_user_id w /\
  users (snd (run_image op w db)) = users db /\
  signal_analysis (snd (run_image op w db)) = signal_analysis db /\
  exists studies analyses,
    dicom_files (snd (run_image op w db)) = (dicom_files db ++ studies)%list /\
    image_analysis (snd (run_image op w db)) = (image_analysis db ++ analyses)%list /\
    Forall (study_row_of (iw_user_id w)) studies /\
    Forall (image_row_of (iw_user_id w)) analyses /\
    (length studies + length analyses <= 1)%nat.
Proof.
  destruct (run_image op w db) as [[o w'] db'] eqn:Hrun. cbn [fst snd].
  assert (forall (x : database),
            x = db ->
            users x = users db /\ signal_analysis x = signal_analysis db /\
            exists studies analyses,
              dicom_files x = (dicom_files db ++ studies)%list /\
              image_analysis x = (image_analysis db ++ analyses)%list /\
              Forall (study_row_of (iw_user_id w)) studies /\
              Forall (image_row_of (iw_user_id w)) analyses /\
              (length studies + length analyses <= 1)%nat) as Hsame.
  { intros x ->. repeat split. exists [], []. rewrite !app_nil_r.
    repeat split; try constructor. cbn. lia. }
  destruct op; cbn [run_image] in Hrun.
  - unfold load_dicom in Hrun. run_cases Hrun;
      (split; [cbn; rewrite ?fit_sliders_user_id; reflexivity|]);
      try (apply Hsame; reflexivity).
    all: split; [reflexivity|]; split; [reflexivity|];
      eexists [_], []; rewrite app_nil_r;
      split; [reflexivity|]; split; [reflexivity|];
      split; [constructor; [repeat split|constructor]|];
      split; [constructor|cbn; lia].
  - unfold convert_to_nifti in Hrun. run_cases Hrun;
      (split; [reflexivity|]); apply Hsame; reflexivity.
  - unfold view_nifti in Hrun. run_cases Hrun;
      (split; [cbn; rewrite ?fit_sliders_user_id; reflexivity|]);
      apply Hsame; reflexivity.
  - unfold load_image in Hrun. run_cases Hrun;
      (split; [reflexivity|]); apply Hsame; reflexivity.
  - unfold apply_morphological in Hrun. run_cases Hrun;
      (split; [reflexivity|]); try (apply Hsame; reflexivity).
    split; [reflexivity|]; split; [reflexivity|].
    eexists [], [_]. rewrite app_nil_r.
    split; [reflexivity|]; split; [reflexivity|].
    split; [constructor|]. split; [|cbn; lia].
    constructor; [|constructor]. split; [reflexivity|]. left. split; reflexivity.
  - unfold count_cells in Hrun. run_cases Hrun;
      (split; [reflexivity|]); try (apply Hsame; reflexivity).
    split; [reflexivity|]; split; [reflexivity|].
    eexists [], [_]. rewrite app_nil_r.
    split; [reflexivity|]; split; [reflexivity|].
    split; [constructor|]. split; [|cbn; lia].
    constructor; [|constructor]. split; [reflexivity|]. right. reflexivity.
  - unfold save_analysis in Hrun. run_cases Hrun;
      (split; [reflexivity|]); apply Hsame; reflexivity.
Qed.

Lemma image_event_log (e : image_event) (w : image_window) (db : database) :
  iw_user_id (snd (fst (image_event_step e w db))) = iw_user_id w /\
  users (snd (image_event_step e w db)) = users db /\
  signal_analysis (snd (image_event_step e w db)) = signal_analysis db /\
  exists studies analyses,
    dicom_files (snd (image_event_step e w db)) = (dicom_files db ++ studies)%list /\
    image_analysis (snd (image_event_step e w db)) = (image_analysis db ++ analyses)%list /\
    Forall (study_row_of (iw_user_id w)) studies /\
    Forall (image_row_of (iw_user_id w)) analyses /\
    (length studies + length analyses <= 1)%nat.
Proof.
  destruct e as [op|a v draw|m|k]; cbn [image_event_step fst snd].
  - apply image_click_log.
  - split.
    + unfold slider_moved. destruct (enabled (slider_of a w)); [|reflexivity].
      destruct (value (setValue v (slider_of a w)) =? value (slider_of a w));
        [reflexivity|].
      destruct (update_dicom_view _ draw); destruct a; reflexivity.
    + repeat split. exists [], []. rewrite !app_nil_r.
      repeat split; try constructor. cbn. lia.
  - repeat split. exists [], []. rewrite !app_nil_r.
    repeat split; try constructor. cbn. lia.
  - repeat split. exists [], []. rewrite !app_nil_r.
    repeat split; try constructor. cbn. lia.
Qed.

(** Whatever is done in the image window, in any order: the user of the
    window and the users table stay as they are, the signal log is not
    touched, at most one row is written per event, every row written
    carries the user of the window, a study row never has a derived path, a
    date or a modality, and an analysis row is a [morphological] success or
    a [cell_count]. *)
Lemma image_session_log (events : list image_event) (w : image_window) (db : database) :
  iw_user_id (fst (run_image_events events w db)) = iw_user_id w /\
  users (snd (run_image_events events w db)) = users db /\
  signal_analysis (snd (run_image_events events w db)) = signal_analysis db /\
  exists studies analyses,
    dicom_files (snd (run_image_events events w db)) = (dicom_files db ++ studies)%list /\
    image_analysis (snd (run_image_events events w db))
    = (image_analysis db ++ analyses)%list /\
    Forall (study_row_of (iw_user_id w)) studies /\
    Forall (image_row_of (iw_user_id w)) analyses /\
    (length studies + length analyses <= length events)%nat.
Proof.
  revert w db. induction events as [|e events IH]; intros w db; cbn [run_image_events].
  - repeat split. exists [], []. rewrite !app_nil_r. repeat split; constructor.
  - destruct (image_event_log e w db)
      as [Hid [Hu [Hs [s1 [a1 [Hd1 [Hi1 [Fs1 [Fa1 Hlen1]]]]]]]]].
    destruct (IH (snd (fst (image_event_step e w db))) (snd (image_event_step e w db)))
      as [Hid' [Hu' [Hs' [s2 [a2 [Hd2 [Hi2 [Fs2 [Fa2 Hlen2]]]]]]]]].
    rewrite Hid in *.
    split; [congruence|]. split; [congruence|]. split; [congruence|].
    exists (s1 ++ s2)%list, (a1 ++ a2)%list.
    rewrite Hd2, Hd1, Hi2, Hi1, <- !app_assoc, !length_app.
    repeat split; try (apply Forall_app; split; assumption).
    cbn [length]. lia.
Qed.

Lemma signal_click_log (op : signal_operation) (w : signal_window) (db : database) :
  sw_user_id (snd (fst (run_signal op w db))) = sw_user_id w /\
  users (snd (run_signal op w db)) = users db /\
  dicom_files (snd (run_signal op w db)) = dicom_files db /\
  image_analysis (snd (run_signal op w db)) = image_analysis db /\
  exists rows,
    signal_analysis (snd (run_signal op w db)) = (signal_analysis db ++ rows)%list /\
    Forall (signal_row_of (sw_user_id w)) rows /\
    (length rows <= 1)%nat.
Proof.
  destruct (run_signal op w db) as [[o w'] db'] eqn:Hrun. cbn [fst snd].
  assert (forall (x : database),
            x = db ->
            users x = users db /\ dicom_files x = dicom_files db /\
            image_analysis x = image_analysis db /\
            exists rows,
              signal_analysis x = (signal_analysis db ++ rows)%list /\
              Forall (signal_row_of (sw_user_id w)) rows /\
              (length rows <= 1)%nat) as Hsame.
  { intros x ->. repeat split. exists []. rewrite app_nil_r.
    split; [reflexivity|]. split; [constructor|cbn; lia]. }
  assert (forall path kind what params result,
            (kind = "MAT" \/ kind = "CSV") ->
            ((what = "load" /\ path <> "" /\ result = "success") \/
             (what = "plot" /\ path = "" /\ result = "success") \/
             (what = "basic_analysis" /\ path = "")) ->
            let x := save_signal_analysis db path kind what params result (sw_user_id w) in
            users x = users db /\ dicom_files x = dicom_files db /\
            image_analysis x = image_analysis db /\
            exists rows,
              signal_analysis x = (signal_analysis db ++ rows)%list /\
              Forall (signal_row_of (sw_user_id w)) rows /\
              (length rows <= 1)%nat) as Hsaved.
  { intros path kind what params result Hkind Hwhat. cbn zeta. repeat split.
    eexists [_]. split; [reflexivity|]. split; [|cbn; lia].
    constructor; [|constructor]. unfold signal_row_of. cbn. repeat split; assumption. }
  destruct op; cbn [run_signal] in Hrun.
  - unfold load_mat in Hrun. run_cases Hrun;
      (split; [reflexivity|]); try (apply Hsame; reflexivity).
    apply Hsaved; [left; reflexivity|]. left. repeat split.
    intros He. rewrite He in *. discriminate.
  - unfold plot_signal in Hrun. run_cases Hrun;
      (split; [reflexivity|]); try (apply Hsame; reflexivity).
    apply Hsaved; [left; reflexivity|]. right. left. repeat split.
  - unfold analyze_signal in Hrun. run_cases Hrun;
      (split; [reflexivity|]); try (apply Hsame; reflexivity).
    apply Hsaved; [left; reflexivity|]. right. right. repeat split.
  - unfold load_csv in Hrun. run_cases Hrun;
      (split; [reflexivity|]); try (apply Hsame; reflexivity).
    apply Hsaved; [right; reflexivity|]. left. repeat split.
    intros He. rewrite He in *. discriminate.
  - unfold plot_csv in Hrun. run_cases Hrun;
      (split; [reflexivity|]); try (apply Hsame; reflexivity).
    apply Hsaved; [right; reflexivity|]. right. left. repeat split.
  - unfold analyze_csv in Hrun. run_cases Hrun;
      (split; [reflexivity|]); try (apply Hsame; reflexivity).
    apply Hsaved; [right; reflexivity|]. right. right. repeat split.
Qed.

Lemma signal_event_log (e : signal_event) (w : signal_window) (db : database) :
  sw_user_id (snd (fst (signal_event_step e w db))) = sw_user_id w /\
  users (snd (signal_event_step e w db)) = users db /\
  dicom_files (snd (signal_event_step e w db)) = dicom_files db /\
  image_analysis (snd (signal_event_step e w db)) = image_analysis db /\
  exists rows,
    signal_analysis (snd (signal_event_step e w db)) = (signal_analysis db ++ rows)%list /\
    Forall (signal_row_of (sw_user_id w)) rows /\
    (length rows <= 1)%nat.
Proof.
  destruct e as [op|i|i|i]; cbn [signal_event_step fst snd sw_user_id].
  - apply signal_click_log.
  - repeat split. exists []. rewrite app_nil_r.
    split; [reflexivity|]. split; [constructor|cbn; lia].
  - repeat split. exists []. rewrite app_nil_r.
    split; [reflexivity|]. split; [constructor|cbn; lia].
  - repeat split. exists []. rewrite app_nil_r.
    split; [reflexivity|]. split; [constructor|cbn; lia].
Qed.

(** Whatever is done in the signal window, in any order: the user of the
    window, the users table and the two image tables stay as they are, at
    most one row is written per event, every row written carries the user of
    the window and the kind [MAT] or [CSV], and only a [load] row holds a
    file path. *)
Lemma signal_session_log (events : list signal_event) (w : signal_window) (db : database) :
  sw_user_id (fst (run_signal_events events w db)) = sw_user_id w /\
  users (snd (run_signal_events events w db)) = users db /\
  dicom_files (snd (run_signal_events events w db)) = dicom_files db /\
  image_analysis (snd (run_signal_events events w db)) = image_analysis db /\
  exists rows,
    signal_analysis (snd (run_signal_events events w db))
    = (signal_analysis db ++ rows)%list /\
    Forall (signal_row_of (sw_user_id w)) rows /\
    (length rows <= length events)%nat.
Proof.
  revert w db. induction events as [|e events IH]; intros w db; cbn [run_signal_events].
  - repeat split. exists []. rewrite app_nil_r. repeat split; constructor.
  - destruct (signal_event_log e w db) as [Hid [Hu [Hd [Hi [r1 [Hs1 [F1 Hlen1]]]]]]].
    destruct (IH (snd (fst (signal_event_step e w db))) (snd (signal_event_step e w db)))
      as [Hid' [Hu' [Hd' [Hi' [r2 [Hs2 [F2 Hlen2]]]]]]].
    rewrite Hid in *.
    split; [congruence|]. split; [congruence|]. split; [congruence|]. split; [congruence|].
    exists (r1 ++ r2)%list. rewrite Hs2, Hs1, <- app_assoc, length_app.
    repeat split; [apply Forall_app; split; assumption|].
    cbn [length]. lia.
Qed.

(** ** The log across the application *)

Lemma registered_as_users (db db' : database) (user_id : Z) (imagen : bool) :
  (forall row, In row (users db) -> In row (users db')) ->
  registered_as db user_id imagen -> registered_as db' user_id imagen.
Proof.
  intros Hsub [row [Hin H]]. exists row. split; [apply Hsub; exact Hin|exact H].
Qed.

Lemma log_ok_users (db db' : database) :
  (forall row, In row (users db) -> In row (users db')) ->
  dicom_files db' = dicom_files db ->
  image_analysis db' = image_analysis db ->
  signal_analysis db' = signal_analysis db ->
  log_ok db -> log_ok db'.
Proof.
  intros Hsub Hd Hi Hs [H1 [H2 H3]]. unfold log_ok. rewrite Hd, Hi, Hs.
  repeat split; eapply Forall_impl; try eassumption;
    intros row; cbv beta; apply registered_as_users; exact Hsub.
Qed.

Lemma register_user_keeps_users (db : database) (username password user_type : string) :
  (forall row, In row (users db) ->
               In row (users (snd (register_user db username password user_type)))) /\
  dicom_files (snd (register_user db username password user_type)) = dicom_files db /\
  image_analysis (snd (register_user db username password user_type)) = image_analysis db /\
  signal_analysis (snd (register_user db username password user_type))
  = signal_analysis db.
Proof.
  unfold register_user. destruct (username_taken db username); cbn [snd].
  - repeat split. intros row H. exact H.
  - cbn. repeat split. intros row H. apply in_or_app. left. exact H.
Qed.

Lemma login_user_registered (db : database) (username password : string)
    (user_id : Z) (user_type : string) :
  login_user db username password = Some (user_id, user_type) ->
  exists row, In row (users db) /\ u_id row = user_id /\ u_user_type row = user_type.
Proof.
  unfold login_user. intros H.
  destruct (find _ (users db)) as [row|] eqn:Hfind; [|discriminate].
  apply find_some in Hfind. destruct Hfind as [Hin _].
  exists row. inversion H; subst. repeat split. exact Hin.
Qed.

Lemma app_step_keeps (e : app_event) (lw : login_window) (db : database) :
  log_ok db -> window_ok lw db ->
  log_ok (snd (app_step e lw db)) /\ window_ok (fst (app_step e lw db)) (snd (app_step e lw db)).
Proof.
  intros Hlog Hwin. unfold app_step.
  destruct e as [text|text|imagen| | |ev|ev];
    destruct (lw_main_window lw) as [[w|w]|] eqn:Hmw; cbn [fst snd];
    try (split; [exact Hlog|]; unfold window_ok; cbn [lw_main_window];
         try rewrite Hmw; try exact I; unfold window_ok in Hwin; rewrite Hmw in Hwin;
         exact Hwin).
  - (* login *)
    split; [exact Hlog|]. unfold handle_login.
    destruct (is_empty (lw_username lw) || is_empty (lw_password lw));
      [unfold window_ok; cbn [snd]; rewrite Hmw; exact I|].
    destruct (login_user db (lw_username lw) (lw_password lw)) as [[id role]|] eqn:Hlogin;
      [|unfold window_ok; cbn [snd]; rewrite Hmw; exact I].
    cbn [snd fst]. unfold window_ok. cbn [lw_main_window]. rewrite Hmw.
    destruct (login_user_registered _ _ _ _ _ Hlogin) as [row [Hin [Hid Hrole]]].
    unfold MainWindow. destruct (String.eqb role "imagen") eqn:Hr;
      cbn [iw_user_id sw_user_id new_image_window new_signal_window];
      exists row; subst; repeat split; assumption.
  - (* register *)
    assert (forall d, d = snd (handle_register lw db) ->
                      (forall row, In row (users db) -> In row (users d)) /\
                      dicom_files d = dicom_files db /\
                      image_analysis d = image_analysis db /\
                      signal_analysis d = signal_analysis db) as Hreg.
    { intros d ->. unfold handle_register.
      destruct (is_empty (lw_username lw) || is_empty (lw_password lw));
        [cbn [snd]; repeat split; intros row H; exact H|].
      pose proof (register_user_keeps_users db (lw_username lw) (lw_password lw)
                    (if lw_btn_imagen lw then "imagen" else "senal")) as H.
      destruct (register_user db (lw_username lw) (lw_password lw) _) as [ok db'].
      cbn [snd] in H. destruct ok; cbn [snd]; exact H. }
    destruct (Hreg _ eq_refl) as [Hsub [Hd [Hi Hs]]].
    split; [apply (log_ok_users db); assumption|].
    unfold window_ok. rewrite Hmw. exact I.
  - (* an event of the image window *)
    unfold window_ok in Hwin. rewrite Hmw in Hwin.
    destruct (image_event_log ev w db)
      as [Hid [Hu [Hs [studies [analyses [Hd [Hi [Fs [Fa _]]]]]]]]].
    assert (forall row, In row (users db) ->
                        In row (users (snd (image_event_step ev w db)))) as Hsub.
    { intros row H. rewrite Hu. exact H. }
    destruct Hlog as [H1 [H2 H3]]. split.
    + unfold log_ok. rewrite Hd, Hi, Hs. repeat split.
      * apply Forall_app. split.
        -- eapply Forall_impl; [|exact H1]. intros row. cbv beta.
           apply registered_as_users. exact Hsub.
        -- eapply Forall_impl; [|exact Fs]. intros row [Hrow _]. cbv beta.
           rewrite Hrow. apply (registered_as_users db); assumption.
      * apply Forall_app. split.
        -- eapply Forall_impl; [|exact H2]. intros row. cbv beta.
           apply registered_as_users. exact Hsub.
        -- eapply Forall_impl; [|exact Fa]. intros row [Hrow _]. cbv beta.
           rewrite Hrow. apply (registered_as_users db); assumption.
      * eapply Forall_impl; [|exact H3]. intros row. cbv beta.
        apply registered_as_users. exact Hsub.
    + unfold window_ok, with_main_window. cbn [lw_main_window]. rewrite Hid.
      apply (registered_as_users db); assumption.
  - (* an event of the signal window *)
    unfold window_ok in Hwin. rewrite Hmw in Hwin.
    destruct (signal_event_log ev w db) as [Hid [Hu [Hd [Hi [rows [Hs [F _]]]]]]].
    assert (forall row, In row (users db) ->
                        In row (users (snd (signal_event_step ev w db)))) as Hsub.
    { intros row H. rewrite Hu. exact H. }
    destruct Hlog as [H1 [H2 H3]]. split.
    + unfold log_ok. rewrite Hd, Hi, Hs. repeat split.
      * eapply Forall_impl; [|exact H1]. intros row. cbv beta.
        apply registered_as_users. exact Hsub.
      * eapply Forall_impl; [|exact H2]. intros row. cbv beta.
        apply registered_as_users. exact Hsub.
      * apply Forall_app. split.
        -- eapply Forall_impl; [|exact H3]. intros row. cbv beta.
           apply registered_as_users. exact Hsub.
        -- eapply Forall_impl; [|exact F]. intros row [Hrow _]. cbv beta.
           rewrite Hrow. apply (registered_as_users db); assumption.
    + unfold window_ok, with_main_window. cbn [lw_main_window]. rewrite Hid.
      apply (registered_as_users db); assumption.
Qed.

(** Whatever the user does from the login form on, in any order: every row
    of the two image tables carries the id of a registered image expert and
    every row of the signal table the id of a registered user of the other
    role, provided the rows the store held at the start did; and the main
    window, once open, acts for a registered user of its role. The foreign
    keys of the schema hold although nothing enforces them. *)
Lemma app_log_ok (events : list app_event) (db : database) :
  log_ok db ->
  log_ok (snd (run_app events new_login_window db)) /\
  window_ok (fst (run_app events new_login_window db))
    (snd (run_app events new_login_window db)).
Proof.
  intros Hlog.
  assert (forall lw d, log_ok d -> window_ok lw d ->
                       log_ok (snd (run_app events lw d)) /\
                       window_ok (fst (run_app events lw d)) (snd (run_app events lw d)))
    as Hgen.
  { induction events as [|e events IH]; intros lw d Hl Hw; cbn [run_app fst snd].
    - split; assumption.
    - destruct (app_step_keeps e lw d Hl Hw) as [Hl' Hw']. apply IH; assumption. }
  apply Hgen; [exact Hlog|exact I].
Qed.

(** ** Reachable windows *)

Lemma is_empty_false (s : string) : is_empty s = false <-> s <> "".
Proof. destruct s; cbn; split; congruence. Qed.














(** ** The sliders between the events *)

Lemma slider_inside_fit (dim : Z) (s : QSlider) :
  minimum s = 0 -> 1 <= dim -> slider_inside dim (fit_slider dim s).
Proof.
  intros Hmin Hdim. rewrite fit_slider_spec by assumption.
  unfold slider_inside. cbn [minimum maximum value].
  assert (0 <= dim / 2) by (apply Z.div_pos; lia).
  assert (dim / 2 < dim) by (apply Z.div_lt; lia).
  repeat split; lia.
Qed.

Lemma slider_inside_setValue (dim v : Z) (s : QSlider) :
  slider_inside dim s -> slider_inside dim (setValue v s).
Proof.
  unfold slider_inside, setValue. cbn [minimum maximum value].
  intros [Hmin [Hmax Hval]]. rewrite Hmin, Hmax. repeat split; lia.
Qed.

Lemma sliders_inside_loaded (v : volume) (w : image_window) :
  positive_extents (vol_shape v) ->
  sliders_inside w ->
  sliders_inside (fit_sliders (vol_shape v) (with_volume v w)).
Proof.
  intros Hpos [Ha [Hb [Hc Hin]]].
  destruct (fit_sliders_minimum (vol_shape v) (with_volume v w) Hpos Ha Hb Hc)
    as [Ha' [Hb' Hc']].
  split; [exact Ha'|]. split; [exact Hb'|]. split; [exact Hc'|].
  intros v' a b c rest Hv Hshape.
  assert (v' = v) as ->.
  { destruct (vol_shape v) as [|x [|y [|z l]]]; cbn in Hv; congruence. }
  unfold positive_extents in Hpos. rewrite Hshape in *.
  inversion Hpos as [|? ? Hpa Hpos1]; subst.
  inversion Hpos1 as [|? ? Hpb Hpos2]; subst.
  inversion Hpos2 as [|? ? Hpc _]; subst.
  cbn -[fit_slider]. repeat split; apply slider_inside_fit; assumption.
Qed.

Ltac keeps_sliders Hw :=
  unfold sliders_inside in *;
  cbn [with_image with_volume with_sliders with_patient_info with_cell_count with_morph
       iw_dicom_volume iw_slider_axial iw_slider_coronal iw_slider_sagital] in *;
  exact Hw.

Lemma image_event_sliders_inside (e : image_event) (w : image_window) (db : database) :
  full_volume_event e -> sliders_inside w ->
  sliders_inside (snd (fst (image_event_step e w db))).
Proof.
  intros Hfull Hw.
  destruct e as [op|a x draw|m|k]; cbn [image_event_step fst snd full_volume_event] in *.
  - destruct (run_image op w db) as [[o w'] db'] eqn:Hrun. cbn [fst snd].
    destruct op; cbn [run_image offers_full_volumes] in *.
    + unfold load_dicom in Hrun.
      destruct (is_empty _); [inversion Hrun; subst; exact Hw|].
      destruct (ld_read env) as [series|]; [|inversion Hrun; subst; exact Hw].
      specialize (Hfull series eq_refl).
      pose proof (sliders_inside_loaded (ds_volume series) w Hfull Hw) as Hnew.
      destruct (update_dicom_view _ _); inversion Hrun; subst; keeps_sliders Hnew.
    + unfold convert_to_nifti in Hrun. run_cases Hrun; exact Hw.
    + unfold view_nifti in Hrun.
      destruct (is_empty _); [inversion Hrun; subst; exact Hw|].
      destruct (vn_load env) as [v|]; [|inversion Hrun; subst; exact Hw].
      specialize (Hfull v eq_refl).
      pose proof (sliders_inside_loaded v w Hfull Hw) as Hnew.
      destruct (update_dicom_view _ _); inversion Hrun; subst; exact Hnew.
    + unfold load_image in Hrun. run_cases Hrun; keeps_sliders Hw.
    + unfold apply_morphological in Hrun. run_cases Hrun; keeps_sliders Hw.
    + unfold count_cells in Hrun. run_cases Hrun; keeps_sliders Hw.
    + unfold save_analysis in Hrun. run_cases Hrun; keeps_sliders Hw.
  - unfold slider_moved. destruct (enabled (slider_of a w)); [|exact Hw].
    destruct (_ =? _); [exact Hw|].
    assert (sliders_inside (with_slider a (setValue x (slider_of a w)) w)) as Hnew.
    { destruct Hw as [Ha [Hb [Hc Hin]]].
      destruct a; cbn [with_slider slider_of]; unfold sliders_inside;
        cbn [with_sliders iw_dicom_volume iw_slider_axial iw_slider_coronal
             iw_slider_sagital];
        (split; [cbn [setValue minimum]; assumption|]);
        (split; [cbn [setValue minimum]; assumption|]);
        (split; [cbn [setValue minimum]; assumption|]);
        intros v p q r rest Hv Hshape;
        destruct (Hin v p q r rest Hv Hshape) as [Hp [Hq Hr]];
        (split; [|split]);
        first [assumption | apply slider_inside_setValue; assumption]. }
    destruct (update_dicom_view _ draw); exact Hnew.
  - keeps_sliders Hw.
  - keeps_sliders Hw.
Qed.

Lemma run_image_events_sliders_inside (events : list image_event) (w : image_window)
    (db : database) :
  Forall full_volume_event events -> sliders_inside w ->
  sliders_inside (fst (run_image_events events w db)).
Proof.
  revert w db. induction events as [|e events IH]; intros w db Hfull H;
    cbn [run_image_events fst]; [exact H|].
  inversion Hfull; subst. apply IH; [assumption|].
  apply image_event_sliders_inside; assumption.
Qed.

(** Between the events the sliders index inside the volume: in a window
    reached from a new one by any clicks, slider moves and choices, the
    loaded volumes having no empty axis, the redraw of a volume with three
    axes or more finds its three cuts and fails only if the display does. *)
Lemma slider_values_inside (events : list image_event) (user_id : Z) (db : database)
    (v : volume) (draw : result unit) :
  Forall full_volume_event events ->
  iw_dicom_volume (fst (run_image_events events (new_image_window user_id) db)) = Some v ->
  (3 <= length (vol_shape v))%nat ->
  update_dicom_view (fst (run_image_events events (new_image_window user_id) db)) draw
  = draw.
Proof.
  intros Hfull Hv Hlen.
  assert (sliders_inside (fst (run_image_events events (new_image_window user_id) db)))
    as [_ [_ [_ Hin]]].
  { apply run_image_events_sliders_inside; [exact Hfull|].
    repeat split; intros; cbn in *; discriminate. }
  unfold update_dicom_view. rewrite Hv.
  destruct (vol_shape v) as [|a [|b [|c rest]]] eqn:Hshape; cbn in Hlen; try lia.
  destruct (Hin v a b c rest Hv Hshape) as [[_ [_ Ha]] [[_ [_ Hb]] [_ [_ Hc]]]].
  unfold index_ok.
  replace (- a <=? _) with true by (symmetry; apply Z.leb_le; lia).
  replace (_ <? a) with true by (symmetry; apply Z.ltb_lt; lia).
  replace (- b <=? _) with true by (symmetry; apply Z.leb_le; lia).
  replace (_ <? b) with true by (symmetry; apply Z.ltb_lt; lia).
  replace (- c <=? _) with true by (symmetry; apply Z.leb_le; lia).
  replace (_ <? c) with true by (symmetry; apply Z.ltb_lt; lia).
  reflexivity.
Qed.

(** ** The redraws while a volume is loaded *)

Lemma refit_all_fit_sliders (shape : list Z) (w : image_window) :
  snd (refit_all all_axes shape w) = fit_sliders shape w.
Proof. destruct shape as [|a [|b [|c rest]]]; reflexivity. Qed.

Lemma index_ok_inside (dim i : Z) : 0 <= i < dim -> index_ok dim i = true.
Proof.
  intros H. unfold index_ok. apply andb_true_iff. split;
    [apply Z.leb_le | apply Z.ltb_lt]; lia.
Qed.


Lemma setMaximum_range (dim : Z) (s : QSlider) :
  minimum s = 0 -> 1 <= dim ->
  minimum (setMaximum (dim - 1) s) = 0 /\
  maximum (setMaximum (dim - 1) s) = dim - 1 /\
  0 <= value (setMaximum (dim - 1) s) < dim.
Proof.
  intros Hmin Hdim. unfold setMaximum, setRange, setValue.
  cbn [minimum maximum value]. rewrite Hmin. repeat split; lia.
Qed.

Lemma setValue_half (dim : Z) (s : QSlider) :
  minimum s = 0 -> 1 <= dim ->
  value (setValue (dim / 2) (setMaximum (dim - 1) s)) = dim / 2.
Proof.
  intros Hmin Hdim.
  destruct (setMaximum_range dim s Hmin Hdim) as [H0 [H1 _]].
  unfold setValue at 1. cbn [value]. rewrite H0, H1.
  assert (0 <= dim / 2) by (apply Z.div_pos; lia).
  assert (dim / 2 < dim) by (apply Z.div_lt; lia).
  lia.
Qed.


Lemma refit_emissions (P : image_window -> Prop) (a : axis) (dim : Z)
    (w : image_window) :
  minimum (slider_of a w) = 0 -> 1 <= dim ->
  (forall s, 0 <= value s < dim -> P (with_slider a s w)) ->
  Forall P (fst (refit a dim w)).
Proof.
  intros Hmin Hdim HP. unfold refit. cbn [fst].
  pose proof (setMaximum_range dim _ Hmin Hdim) as [_ [_ H1]].
  pose proof (setValue_half dim _ Hmin Hdim) as H2.
  assert (0 <= dim / 2 < dim) as Hq.
  { split; [apply Z.div_pos; lia | apply Z.div_lt; lia]. }
  apply Forall_app. split.
  - destruct (_ =? _); constructor; [|constructor]. apply HP. exact H1.
  - destruct (_ =? _); constructor; [|constructor]. apply HP. rewrite H2. exact Hq.
Qed.

(** The redraws inside a load stay inside the new volume when the values
    the sliders have are indices of it, as they are in a new window and
    when a volume at least as large is loaded over another; the loop then
    leaves the sliders as [fit_sliders] gives them. *)
Lemma redraws_inside (w : image_window) (v : volume) (a b c : Z) (rest : list Z) :
  vol_shape v = a :: b :: c :: rest ->
  minimum (iw_slider_axial w) = 0 ->
  minimum (iw_slider_coronal w) = 0 ->
  minimum (iw_slider_sagital w) = 0 ->
  1 <= a ->
  0 <= value (iw_slider_coronal w) < b ->
  0 <= value (iw_slider_sagital w) < c ->
  Forall (fun w1 => forall draw, update_dicom_view w1 draw = draw)
    (fst (refit_all all_axes (vol_shape v) (with_volume v w))) /\
  snd (refit_all all_axes (vol_shape v) (with_volume v w))
  = fit_sliders (vol_shape v) (with_volume v w).
Proof.
  intros Hshape Hma Hmb Hmc Ha Hb Hc. split; [|apply refit_all_fit_sliders].
  rewrite Hshape.
  assert (forall sa sb sc,
            0 <= value sa < a -> 0 <= value sb < b -> 0 <= value sc < c ->
            forall draw,
              update_dicom_view (with_sliders sa sb sc (with_volume v w)) draw = draw)
    as Hin.
  { intros sa sb sc Hsa Hsb Hsc draw. unfold update_dicom_view.
    cbn [with_sliders with_volume iw_dicom_volume iw_slider_axial
         iw_slider_coronal iw_slider_sagital].
    rewrite Hshape, !index_ok_inside by assumption. reflexivity. }
  assert (1 <= b) as Hb1 by lia. assert (1 <= c) as Hc1 by lia.
  pose proof (setValue_half a _ Hma Ha) as Hha.
  pose proof (setValue_half b _ Hmb Hb1) as Hhb.
  assert (0 <= a / 2 < a) as Hqa.
  { split; [apply Z.div_pos; lia | apply Z.div_lt; lia]. }
  assert (0 <= b / 2 < b) as Hqb.
  { split; [apply Z.div_pos; lia | apply Z.div_lt; lia]. }
  unfold all_axes. cbn [refit_all fst snd].
  apply Forall_app. split; [|apply Forall_app; split; [|apply Forall_app; split]].
  - apply refit_emissions; [exact Hma|exact Ha|].
    intros s Hs draw. apply (Hin s _ _ Hs Hb Hc).
  - apply refit_emissions; [exact Hmb|exact Hb1|].
    intros s Hs draw. unfold refit. cbn [snd slider_of with_slider with_sliders
      with_volume iw_slider_axial iw_slider_coronal iw_slider_sagital iw_dicom_volume].
    unfold update_dicom_view.
    cbn [with_sliders with_volume iw_dicom_volume iw_slider_axial
         iw_slider_coronal iw_slider_sagital].
    rewrite Hshape. cbn [setEnabled value]. rewrite Hha.
    rewrite !index_ok_inside by assumption. reflexivity.
  - apply refit_emissions; [exact Hmc|exact Hc1|].
    intros s Hs draw. unfold refit. cbn [snd slider_of with_slider with_sliders
      with_volume iw_slider_axial iw_slider_coronal iw_slider_sagital iw_dicom_volume].
    unfold update_dicom_view.
    cbn [with_sliders with_volume iw_dicom_volume iw_slider_axial
         iw_slider_coronal iw_slider_sagital].
    rewrite Hshape. cbn [setEnabled value]. rewrite Hha, Hhb.
    rewrite !index_ok_inside by assumption. reflexivity.
  - constructor.
Qed.

(** ** Edge inputs of the image tab *)

(** A file that [cv2.imread] cannot read is taken all the same: the slot
    ends in the exception of [show_image], the image that was in the window
    is gone, and from then on the morphological operation, the cell count
    and the save do nothing, without a message. *)
Lemma unreadable_image_clears (env : load_image_env) (w : image_window)
    (db : database) :
  li_filepath env <> "" ->
  li_imread env = None ->
  load_image env w db
  = (Uncaught "'NoneType' object has no attribute 'shape'",
     with_image None (Some (li_filepath env)) w, db) /\
  (forall show db',
     apply_morphological show (snd (fst (load_image env w db))) db'
     = (Ignored, snd (fst (load_image env w db)), db')) /\
  (forall draw db',
     count_cells draw (snd (fst (load_image env w db))) db'
     = (Ignored, snd (fst (load_image env w db)), db')) /\
  (forall env' db',
     save_analysis env' (snd (fst (load_image env w db))) db'
     = (Ignored, snd (fst (load_image env w db)), db')).
Proof.
  intros Hpath Hread.
  assert (load_image env w db
          = (Uncaught "'NoneType' object has no attribute 'shape'",
             with_image None (Some (li_filepath env)) w, db)) as Hload.
  { unfold load_image. apply is_empty_false in Hpath. rewrite Hpath, Hread.
    reflexivity. }
  rewrite Hload. cbn [fst snd]. repeat split.
Qed.



(** ** The cell count of a blank picture *)

Lemma foreground_none (h w : Z) (f : Z -> Z -> Z) :
  0 < h -> 0 < w ->
  (forall r c, 0 <= r < h -> 0 <= c < w -> f r c = 0) ->
  foreground (tabulate h w f) = [].
Proof.
  intros Hh Hw Hzero.
  destruct (foreground (tabulate h w f)) as [|p l] eqn:Hfg; [reflexivity|].
  exfalso.
  assert (In p (foreground (tabulate h w f))) as Hin by (rewrite Hfg; left; reflexivity).
  apply foreground_tabulate in Hin; try assumption.
  destruct Hin as [[Hr Hc] Hne]. apply Hne. apply Hzero; assumption.
Qed.

Lemma otsu_uniform (h w v : Z) :
  otsu_threshold (tabulate h w (fun _ _ => v)) = 0.
Proof.
  unfold otsu_threshold. rewrite fold_otsu_keeps; [reflexivity|].
  intros t _. unfold otsu_step.
  set (px := concat (tabulate h w (fun _ _ => v))).
  assert (forall x, In x px -> x = v) as Hall.
  { intros x Hx. apply concat_tabulate_In in Hx. destruct Hx as [r [c [_ [_ Hx]]]].
    exact Hx. }
  assert (count_le t px = 0 \/ Z.of_nat (length px) - count_le t px = 0) as Hcount.
  { unfold count_le. destruct (Z.leb_spec v t) as [Hle | Hlt].
    - right. replace (filter (fun x => x <=? t) px) with px; [lia|].
      symmetry. apply forallb_filter_id. apply forallb_forall.
      intros x Hx. rewrite (Hall x Hx). apply Z.leb_le. exact Hle.
    - left. replace (filter (fun x => x <=? t) px) with (@nil Z); [reflexivity|].
      symmetry. clear -Hall Hlt. induction px as [|x px IH]; [reflexivity|].
      cbn [filter]. rewrite (Hall x (or_introl eq_refl)).
      replace (v <=? t) with false by (symmetry; apply Z.leb_gt; exact Hlt).
      apply IH. intros y Hy. apply Hall. right. exact Hy. }
  destruct Hcount as [-> | ->]; [reflexivity|].
  rewrite Z.eqb_refl, orb_true_r. reflexivity.
Qed.

(** A picture of one grey level has no cell to count, except that an all
    black one counts as one: the threshold of Otsu falls back to 0, which
    only black does not exceed, and the picture as a whole is then the one
    component. *)
Lemma count_cells_blank (h w v : Z) :
  0 < h -> 0 < w -> 0 <= v ->
  cell_count_of (Gray (tabulate h w (fun _ _ => v))) = (if v =? 0 then 1 else 0) /\
  cell_count_of (as_bgr (tabulate h w (fun _ _ => v))) = (if v =? 0 then 1 else 0).
Proof.
  intros Hh Hw Hv.
  assert (cell_count_of (Gray (tabulate h w (fun _ _ => v)))
          = (if v =? 0 then 1 else 0)) as Hgray.
  { unfold cell_count_of, threshold_BINARY_INV_OTSU. cbn [to_gray snd].
    rewrite otsu_uniform, map_tabulate.
    destruct (Z.eqb_spec v 0) as [-> | Hne].
    - (* black: everything is foreground *)
      cbn [Z.ltb Z.compare].
      rewrite (opening_restores h w (fun _ => True) (fun _ _ => 255) Hh Hw).
      + unfold connectedComponents, components.
        replace (length (fold_left add_pixel
                           (foreground (tabulate h w (fun _ _ => 255))) []))
          with (length [rectangle 0 0 h w]); [cbn [length]; lia|].
        symmetry.
        apply (components_unique_count _
                 (fun q => In q (foreground (tabulate h w (fun _ _ => 255))))).
        * apply clusters_are_components.
        * repeat split.
          -- constructor; [|constructor]. apply rectangle_nonempty; assumption.
          -- constructor; [|constructor]. apply rectangle_connected.
          -- constructor; constructor.
          -- intros Hp. apply foreground_tabulate in Hp; try assumption.
             exists (rectangle 0 0 h w). split; [left; reflexivity|].
             apply rectangle_In. destruct Hp as [[Hr Hc] _]. lia.
          -- intros [b [[<- | []] Hp]]. apply rectangle_In in Hp.
             apply foreground_tabulate; try assumption.
             split; [split; lia | discriminate].
      + intros r c _. left. split; [reflexivity | exact I].
      + intros p Hp _. exists p. split; [exact Hp|].
        split; [unfold near; lia | intros q _ _; exact I].
    - (* any other level: nothing is foreground *)
      replace (0 <? v) with true by (symmetry; apply Z.ltb_lt; lia).
      rewrite (opening_restores h w (fun _ => False) (fun _ _ => 0) Hh Hw).
      + unfold connectedComponents, components.
        rewrite foreground_none by (try assumption; reflexivity).
        cbn [fold_left length]. lia.
      + intros r c _. right. split; [reflexivity | intros []].
      + intros p _ []. }
  split; [exact Hgray|]. rewrite cell_count_as_bgr. exact Hgray.
Qed.

(** ** Pressing "Aplicar" twice *)




Section Tables.

Variables h w a : Z.

















End Tables.





(** ** What a load selects *)



(** ** The statements at sample inputs *)

Lemma app_log_ok_witness :
  log_ok (snd (run_app sample_visit new_login_window empty_database)) /\
  window_ok (fst (run_app sample_visit new_login_window empty_database))
    (snd (run_app sample_visit new_login_window empty_database)).
Proof.
  apply app_log_ok. repeat split; constructor.
Defined.

Lemma slider_values_inside_witness :
  update_dicom_view
    (fst (run_image_events sample_drags (new_image_window 1) empty_database)) (Ok tt)
  = Ok tt.
Proof.
  apply (slider_values_inside sample_drags 1 empty_database study_volume).
  - repeat constructor. intros series Hread. inversion Hread; subst. cbn.
    repeat constructor; lia.
  - reflexivity.
  - cbn. lia.
Defined.


Lemma redraws_inside_witness :
  Forall (fun w1 => forall draw, update_dicom_view w1 draw = draw)
    (fst (refit_all all_axes (vol_shape study_volume)
            (with_volume study_volume (new_image_window 1)))) /\
  snd (refit_all all_axes (vol_shape study_volume)
         (with_volume study_volume (new_image_window 1)))
  = fit_sliders (vol_shape study_volume) (with_volume study_volume (new_image_window 1)).
Proof.
  apply (redraws_inside (new_image_window 1) study_volume 64 512 511 []);
    try reflexivity; cbn; lia.
Defined.

Lemma unreadable_image_clears_witness :
  load_image text_file_env two_cells_window empty_database
  = (Uncaught "'NoneType' object has no attribute 'shape'",
     with_image None (Some "notes.txt") two_cells_window, empty_database).
Proof.
  apply (unreadable_image_clears text_file_env two_cells_window empty_database).
  - discriminate.
  - reflexivity.
Defined.


Lemma count_cells_blank_witness :
  cell_count_of (Gray (tabulate 4 6 (fun _ _ => 0))) = 1 /\
  cell_count_of (as_bgr (tabulate 4 6 (fun _ _ => 0))) = 1.
Proof.
  apply (count_cells_blank 4 6 0); lia.
Defined.


